(** * Find My Color (src/App.tsx): dominant colours and point sampling

    A shallow embedding of the two computations of [App]:
    - [extractColors] (the histogram over the canvas' [ImageData], the
      ranking and the truncation to six entries), and
    - [getColorAtPoint] (the mapping of a click to a canvas pixel and its
      hex formatting).

    Conventions.
    - A [Uint8ClampedArray] is a [list Z] of bytes, four per pixel
      (R, G, B, A), row-major.
    - JavaScript numbers that are integers by construction (channel values,
      counts, bit operations) are [Z]; [<<] wraps to 32 bits as in the
      language.
    - The numbers of the click (client coordinates, the bounding rectangle,
      the scale factors and the arguments of [getImageData]) are IEEE 754
      doubles, Rocq's primitive [float], with the [-], [/] and [*] of the
      language.
    - The [percentage] of a [Color] is kept as the exact rational
      [count / totalPixels * 100]; the double the code stores is this value
      rounded twice, [percentageDouble], and [rankedDoubles] is the result
      with these doubles; statements about the values of the doubles are
      made on [rankedDoubles].
    - The array and the map of one call are also modelled as a heap
      ([extractOnHeap]), for what the call reads, writes and leaves
      behind.
    - A [Map<string, number>] is an association list in insertion order,
      the order [Map.prototype.entries] iterates in. *)

From Stdlib Require Import ZArith QArith Qround List String Ascii Bool Lia Lqa.
From Stdlib Require Import Sorting.Sorted Sorting.Permutation.
From Stdlib Require Import Floats Uint63.
Import ListNotations.

Open Scope Z_scope.

(** ** The fragment of JavaScript the two functions use *)

Module JS.

(** [ToInt32]: the signed 32-bit wrap-around of the bitwise operators. *)
Definition toInt32 (z : Z) : Z := (z + 2 ^ 31) mod 2 ^ 32 - 2 ^ 31.

(** [a << n] on numbers that hold integers. *)
Definition shl (a n : Z) : Z := toInt32 (Z.shiftl (toInt32 a) (n mod 32)).

(** The digits [Number.prototype.toString(16)] writes. *)
Definition hexDigit (d : Z) : ascii :=
  nth (Z.to_nat d) (list_ascii_of_string "0123456789abcdef") "0"%char.

Fixpoint toString16_aux (fuel : nat) (n : Z) (acc : string) : string :=
  match fuel with
  | O => acc
  | S k =>
      if n <? 16 then String (hexDigit n) acc
      else toString16_aux k (n / 16) (String (hexDigit (n mod 16)) acc)
  end.

(** [n.toString(16)] for an integer [n]; the fuel is a bound on the number
    of hexadecimal digits. *)
Definition toString16 (n : Z) : string :=
  if n <? 0
  then String "-"%char (toString16_aux (S (Z.to_nat (Z.log2 (- n)))) (- n) "")
  else toString16_aux (S (Z.to_nat (Z.log2 n))) n "".

(** [s.slice(1)]. *)
Definition slice1 (s : string) : string :=
  match s with
  | EmptyString => EmptyString
  | String _ rest => rest
  end.

(** [x || 0] for the result of [Map.prototype.get]: [undefined] and [0]
    both give [0]. *)
Definition orZero (x : option Z) : Z :=
  match x with
  | Some v => v
  | None => 0
  end.

(** A number that may carry a fraction: an IEEE 754 double.  The [-], [*]
    and [/] of the language are [PrimFloat.sub], [PrimFloat.mul] and
    [PrimFloat.div]. *)
Definition number : Type := float.

(** The number an integer (a length, a count, a natural size) is. *)
Definition ofInteger (z : Z) : number :=
  if z <? 0 then PrimFloat.opp (of_uint63 (Uint63.of_Z (- z)))
  else of_uint63 (Uint63.of_Z z).

(** The exact value of a finite number; [None] for [Infinity], [-Infinity]
    and [NaN]. *)
Definition value (x : number) : option Q :=
  match Prim2SF x with
  | S754_zero _ => Some 0%Q
  | S754_finite s m e =>
      let n := if s then Z.neg m else Z.pos m in
      Some (if 0 <=? e then inject_Z (n * 2 ^ e)
            else Qmake n (2 ^ Z.to_pos (- e)))
  | S754_infinity _ => None
  | S754_nan => None
  end.

(** Web IDL's IntegerPart: rounding toward zero. *)
Definition trunc (q : Q) : Z :=
  if Qle_bool 0 q then Qfloor q else Qceiling q.

(** Web IDL's conversion of a number to [[EnforceRange] long], the type of
    the arguments of [getImageData] in the HTML Standard: [None] is the
    [TypeError] thrown on a non-finite value or one outside 32 bits. *)
Definition toLong (x : number) : option Z :=
  match value x with
  | None => None
  | Some q =>
      let z := trunc q in
      if (- 2 ^ 31 <=? z) && (z <=? 2 ^ 31 - 1) then Some z else None
  end.

End JS.

(** ** RGB to hex

    The template literal shared by [extractColors] (lines 56-58) and
    [getColorAtPoint] (lines 141-148):
    [`#${((1 << 24) + (r << 16) + (g << 8) + b).toString(16).slice(1)}`]. *)

Definition hexOfRGB (r g b : Z) : string :=
  String "#"%char
    (JS.slice1 (JS.toString16 (JS.shl 1 24 + JS.shl r 16 + JS.shl g 8 + b))).

(** A channel of a [Uint8ClampedArray]. *)
Definition byte (c : Z) : Prop := 0 <= c <= 255.

(** The two hexadecimal digits of a byte, zero-padded. *)
Definition byteDigits (c : Z) : string :=
  String (JS.hexDigit (c / 16)) (String (JS.hexDigit (c mod 16)) EmptyString).

(** ** Data model *)

(** [interface Color { hex: string; percentage: number }] *)
Module Color.
Record t := mk { hex : string; percentage : Q }.
End Color.

(** [interface CustomColor { hex: string; timestamp: number }] *)
Module CustomColor.
Record t := mk { hex : string; timestamp : Z }.
End CustomColor.

(** [Map<string, number>]: entries in insertion order; [set] on a key that
    is present replaces the value where the key stands. *)
Module StringMap.

Definition t := list (string * Z).

Fixpoint get (m : t) (k : string) : option Z :=
  match m with
  | [] => None
  | (k', v) :: m' => if String.eqb k' k then Some v else get m' k
  end.

Fixpoint set (m : t) (k : string) (v : Z) : t :=
  match m with
  | [] => [(k, v)]
  | (k', v') :: m' =>
      if String.eqb k' k then (k', v) :: m' else (k', v') :: set m' k v
  end.

Definition entries (m : t) : list (string * Z) := m.

Definition keys (m : t) : list string := map fst m.

End StringMap.

(** The state of [App] the two callbacks write to. *)
Record AppState := mkAppState {
  colors : list Color.t;
  customColors : list CustomColor.t;
  isPicking : bool;
  pickedColor : option string
}.

(** ** extractColors (lines 48-70)

    [imageData] is the array [ctx.getImageData(0, 0, w, h).data] of line 48:
    four bytes per pixel, so its length is a multiple of four and the loop
    [for (i = 0; i < imageData.length; i += 4)] visits whole pixels. *)

(** The body of the loop, lines 53-59, on the map. *)
Definition countPixel (colorMap : StringMap.t) (r g b : Z) : StringMap.t :=
  let hex := hexOfRGB r g b in
  StringMap.set colorMap hex (JS.orZero (StringMap.get colorMap hex) + 1).

(** The loop of lines 52-60. *)
Fixpoint countColors (imageData : list Z) (colorMap : StringMap.t)
  : StringMap.t :=
  match imageData with
  | r :: g :: b :: _ :: rest => countColors rest (countPixel colorMap r g b)
  | _ => colorMap
  end.

(** [imageData.length / 4], line 50. *)
Definition totalPixels (imageData : list Z) : Q :=
  inject_Z (Z.of_nat (List.length imageData)) / 4.

(** Lines 63-66: [([hex, count]) => ({hex, percentage: count / totalPixels * 100})]. *)
Definition toColor (total : Q) (entry : string * Z) : Color.t :=
  let '(hex, count) := entry in
  Color.mk hex (inject_Z count / total * 100).

(** Line 67: the comparator [(a, b) => b.percentage - a.percentage]. *)
Definition byPercentageDesc (a b : Color.t) : Q :=
  Color.percentage b - Color.percentage a.

(** [Array.prototype.sort(cmp)]: a stable sort; [x] stays in front of a
    later [y] unless [cmp x y > 0]. *)
Fixpoint insertBy {A : Type} (cmp : A -> A -> Q) (x : A) (l : list A)
  : list A :=
  match l with
  | [] => [x]
  | y :: l' =>
      if Qle_bool (cmp x y) 0 then x :: l else y :: insertBy cmp x l'
  end.

Definition sort {A : Type} (cmp : A -> A -> Q) (l : list A) : list A :=
  fold_right (insertBy cmp) [] l.

(** The histogram mapped to colours, before ranking (lines 62-66). *)
Definition histogram (imageData : list Z) : list Color.t :=
  map (toColor (totalPixels imageData))
      (StringMap.entries (countColors imageData [])).

(** Lines 62-68: the value of [sortedColors]. *)
Definition sortedColors (imageData : list Z) : list Color.t :=
  firstn 6 (sort byPercentageDesc (histogram imageData)).

(** Line 70: [setColors(sortedColors)]. *)
Definition extractColors (st : AppState) (imageData : list Z) : AppState :=
  mkAppState (sortedColors imageData) (customColors st) (isPicking st)
             (pickedColor st).

(** ** getColorAtPoint (lines 125-155) *)

(** The hidden [<canvas>] of line 361: [extractColors] gives it the natural
    size of the image and draws the image on it (lines 44-46); [bitmap] is
    its pixels, four bytes each, row-major. *)
Module Canvas.

Record t := mk {
  width : Z;
  height : Z;
  bitmap : list Z;
  context2d : bool  (* whether [getContext("2d")] gives a context *)
}.

(** The four bytes of the pixel in column [sx] of row [sy]; outside the
    bitmap the canvas reads as transparent black. *)
Definition pixelAt (cv : t) (sx sy : Z) : list Z :=
  if (0 <=? sx) && (sx <? width cv) && (0 <=? sy) && (sy <? height cv)
  then firstn 4 (skipn (Z.to_nat (4 * (sy * width cv + sx))) (bitmap cv))
  else [0; 0; 0; 0].

(** [ctx.getImageData(sx, sy, 1, 1).data]; [None] when converting an
    argument throws. *)
Definition getImageData (cv : t) (sx sy : JS.number) : option (list Z) :=
  match JS.toLong sx, JS.toLong sy with
  | Some x, Some y => Some (pixelAt cv x y)
  | _, _ => None
  end.

End Canvas.

(** The result of [getBoundingClientRect()]. *)
Module DOMRect.
Record t := mk {
  left : JS.number;
  top : JS.number;
  width : JS.number;
  height : JS.number
}.
End DOMRect.

(** The [<img>] of lines 290-298 as the handler reads it. *)
Module Image.
Record t := mk {
  naturalWidth : Z;
  naturalHeight : Z;
  getBoundingClientRect : DOMRect.t
}.
End Image.

Module MouseEvent.
Record t := mk { clientX : JS.number; clientY : JS.number }.
End MouseEvent.

(** What a call of the handler does: it returns, having replaced the
    state, or an exception leaves it. *)
Inductive outcome : Type :=
  | Returns (st : AppState)
  | Throws.

(** Lines 150-152 for a sampled [hex]; [now] is [Date.now()]. *)
Definition recordPick (st : AppState) (hex : string) (now : Z) : AppState :=
  mkAppState (colors st)
             (CustomColor.mk hex now :: customColors st)
             false
             (Some hex).

(** Lines 141-148 on the array [pixel]. *)
Definition hexOfPixel (pixel : list Z) : string :=
  hexOfRGB (nth 0 pixel 0) (nth 1 pixel 0) (nth 2 pixel 0).

(** Lines 134-140: the arguments handed to [getImageData]. *)
Definition sourcePoint (image : Image.t) (e : MouseEvent.t)
  : JS.number * JS.number :=
  let rect := Image.getBoundingClientRect image in
  let x := (MouseEvent.clientX e - DOMRect.left rect)%float in
  let y := (MouseEvent.clientY e - DOMRect.top rect)%float in
  let scaleX :=
    (JS.ofInteger (Image.naturalWidth image) / DOMRect.width rect)%float in
  let scaleY :=
    (JS.ofInteger (Image.naturalHeight image) / DOMRect.height rect)%float in
  ((x * scaleX)%float, (y * scaleY)%float).

Definition getColorAtPoint (st : AppState) (canvasRef : option Canvas.t)
    (imageRef : option Image.t) (e : MouseEvent.t) (now : Z) : outcome :=
  if negb (isPicking st) then Returns st
  else
    match canvasRef, imageRef with
    | Some canvas, Some image =>
        if negb (Canvas.context2d canvas) then Returns st
        else
          let '(sx, sy) := sourcePoint image e in
          match Canvas.getImageData canvas sx sy with
          | None => Throws
          | Some pixel => Returns (recordPick st (hexOfPixel pixel) now)
          end
    | _, _ => Returns st
    end.

(** ** Vocabulary of the statements *)

(** The RGB triples of the pixels of [imageData] in scan order, as the loop
    of [countColors] reads them. *)
Fixpoint pixels (imageData : list Z) : list (Z * Z * Z) :=
  match imageData with
  | r :: g :: b :: _ :: rest => (r, g, b) :: pixels rest
  | _ => []
  end.

Definition keyOf (p : Z * Z * Z) : string :=
  let '(r, g, b) := p in hexOfRGB r g b.

(** The map keys of the pixels, in scan order. *)
Definition pixelKeys (imageData : list Z) : list string :=
  map keyOf (pixels imageData).

(** One step of the loop, on the key. *)
Definition countKey (m : StringMap.t) (k : string) : StringMap.t :=
  StringMap.set m k (JS.orZero (StringMap.get m k) + 1).

(** An [ImageData] array of a [width] by [height] image. *)
Definition validImageData (width height : nat) (imageData : list Z) : Prop :=
  List.length imageData = (4 * width * height)%nat /\ Forall byte imageData.

(** Index of the first occurrence. *)
Fixpoint firstIndex (k : string) (l : list string) : option nat :=
  match l with
  | [] => None
  | k' :: l' =>
      if String.eqb k' k then Some O else option_map S (firstIndex k l')
  end.

(** Position of the colour [k] in a list of entries. *)
Definition rank (k : string) (cs : list Color.t) : option nat :=
  firstIndex k (map Color.hex cs).

(** Number of pixels of colour key [k]. *)
Definition occurrences (k : string) (imageData : list Z) : nat :=
  count_occ string_dec (pixelKeys imageData) k.

(** [x] stands somewhere in front of [y]. *)
Definition before {A : Type} (x y : A) (l : list A) : Prop :=
  exists l1 l2 l3, l = l1 ++ x :: l2 ++ y :: l3.

Definition sumPercentage (cs : list Color.t) : Q :=
  fold_right (fun c acc => Color.percentage c + acc)%Q 0%Q cs.

Definition rgb_eq_dec (p q : Z * Z * Z) : {p = q} + {p <> q}.
Proof. repeat decide equality. Defined.

(** The distinct colours of the buffer. *)
Definition distinctColors (imageData : list Z) : list (Z * Z * Z) :=
  nodup rgb_eq_dec (pixels imageData).

(** Sum of the counts of a map. *)
Definition sumCounts (m : StringMap.t) : Z :=
  fold_right (fun e acc => snd e + acc) 0 m.

(** The ranking order: [a] may stand in front of [b]. *)
Definition notBelow (a b : Color.t) : Prop :=
  (Color.percentage b <= Color.percentage a)%Q.

(** ** Sample buffers *)

(** A 3x1 image: two red pixels and a green one. *)
Definition redRedGreen : list Z :=
  [255; 0; 0; 255;  255; 0; 0; 255;  0; 255; 0; 255].

(** The 2x1 image of the end-to-end scenario: red, then green. *)
Definition redGreen : list Z := [255; 0; 0; 255;  0; 255; 0; 255].

(** The same three pixels with other alpha values. *)
Definition redRedGreenFaded : list Z :=
  [255; 0; 0; 0;  255; 0; 0; 128;  0; 255; 0; 7].

(** The state [App] starts in (the [useState] calls of lines 25-31). *)
Definition initialState : AppState := mkAppState [] [] false None.

(** ** Vocabulary of the sampler's statements *)

(** A canvas whose bitmap has four bytes for each of its pixels. *)
Definition validCanvas (cv : Canvas.t) : Prop :=
  0 <= Canvas.width cv /\ 0 <= Canvas.height cv
  /\ Z.of_nat (List.length (Canvas.bitmap cv))
     = 4 * Canvas.width cv * Canvas.height cv
  /\ Forall byte (Canvas.bitmap cv).

(** Whether column [sx] of row [sy] is a pixel of the canvas. *)
Definition inside (cv : Canvas.t) (sx sy : Z) : Prop :=
  0 <= sx < Canvas.width cv /\ 0 <= sy < Canvas.height cv.

(** The click in the coordinates of the displayed image (lines 134-135)
    and the scale factors (lines 137-138), as the code computes them. *)
Definition displayX (image : Image.t) (e : MouseEvent.t) : JS.number :=
  (MouseEvent.clientX e - DOMRect.left (Image.getBoundingClientRect image))
    %float.

Definition displayY (image : Image.t) (e : MouseEvent.t) : JS.number :=
  (MouseEvent.clientY e - DOMRect.top (Image.getBoundingClientRect image))
    %float.

Definition scaleX (image : Image.t) : JS.number :=
  (JS.ofInteger (Image.naturalWidth image)
   / DOMRect.width (Image.getBoundingClientRect image))%float.

Definition scaleY (image : Image.t) : JS.number :=
  (JS.ofInteger (Image.naturalHeight image)
   / DOMRect.height (Image.getBoundingClientRect image))%float.

(** The exact value of a number, [0] when it has none. *)
Definition exact (x : JS.number) : Q :=
  match JS.value x with
  | Some q => q
  | None => 0%Q
  end.

(** The mapping in the words of the specification:
    [floor(display * bufferSize / displaySize)]. *)
Definition mappedCoordinate (display : Q) (bufferSize : Z) (displaySize : Q)
  : Z :=
  Qfloor (display * inject_Z bufferSize / displaySize).

Definition srcX (image : Image.t) (e : MouseEvent.t) : Z :=
  mappedCoordinate (exact (displayX image e)) (Image.naturalWidth image)
    (exact (DOMRect.width (Image.getBoundingClientRect image))).

Definition srcY (image : Image.t) (e : MouseEvent.t) : Z :=
  mappedCoordinate (exact (displayY image e)) (Image.naturalHeight image)
    (exact (DOMRect.height (Image.getBoundingClientRect image))).

(** The specification's mapping as a statement about a call: it records
    the pixel in column [srcX] of row [srcY]. *)
Definition readsMappedPixel (st : AppState) (cv : Canvas.t) (image : Image.t)
    (e : MouseEvent.t) (now : Z) : Prop :=
  exists st',
    getColorAtPoint st (Some cv) (Some image) e now = Returns st'
    /\ pickedColor st'
       = Some (hexOfPixel
                 (Canvas.pixelAt cv (srcX image e) (srcY image e))).

(** The boundary policy in the words of the specification (4.3, step 3):
    clamp to [[lo, hi]]. *)
Definition clamp (lo hi v : Z) : Z := Z.max lo (Z.min hi v).

(** The hex a clamping sampler gives for the click. *)
Definition clampedSample (cv : Canvas.t) (image : Image.t) (e : MouseEvent.t)
  : string :=
  hexOfPixel
    (Canvas.pixelAt cv
       (clamp 0 (Canvas.width cv - 1) (srcX image e))
       (clamp 0 (Canvas.height cv - 1) (srcY image e))).

(** The specification's alternative: the call is rejected, or it samples
    the clamped pixel. *)
Definition clampsOrRejects (st : AppState) (cv : Canvas.t) (image : Image.t)
    (e : MouseEvent.t) (now : Z) : Prop :=
  getColorAtPoint st (Some cv) (Some image) e now = Throws
  \/ getColorAtPoint st (Some cv) (Some image) e now
     = Returns (recordPick st (clampedSample cv image e) now).

(** ** Sample canvases *)

(** A [w] by [h] canvas, every pixel [background] but the one in column
    [px] of row [py], which is [mark]. *)
Definition markedCanvas (w h px py : nat) (background mark : list Z)
  : Canvas.t :=
  Canvas.mk (Z.of_nat w) (Z.of_nat h)
    (flat_map (fun i => if Nat.eqb i (py * w + px) then mark else background)
              (seq 0 (w * h)))
    true.

(** An image shown at [dw] by [dh] with its corner at [(left, top)]. *)
Definition shownImage (nw nh : Z) (left top dw dh : JS.number) : Image.t :=
  Image.mk nw nh (DOMRect.mk left top dw dh).

(** The state once "Pick Color" was pressed. *)
Definition pickingState : AppState := mkAppState [] [] true None.

(** A 4x4 black canvas whose pixel (2,3) is RGB(10,20,30), shown at its
    natural size with its corner at (3.5, 5), and the click on that pixel. *)
Definition smallCanvas : Canvas.t :=
  markedCanvas 4 4 2 3 [0; 0; 0; 255] [10; 20; 30; 255].

Definition smallImage : Image.t :=
  shownImage 4 4 3.5%float 5%float 4%float 4%float.

Definition clickAt23 : MouseEvent.t := MouseEvent.mk 5.5%float 8%float.

(** A 100x100 canvas whose pixel (20,20) is RGB(1,2,3), shown at 50x50, and
    the click at display coordinate (10,10). *)
Definition largeCanvas : Canvas.t :=
  markedCanvas 100 100 20 20 [9; 9; 9; 255] [1; 2; 3; 255].

Definition halfSizeImage : Image.t :=
  shownImage 100 100 0%float 0%float 50%float 50%float.

Definition clickAt1010 : MouseEvent.t := MouseEvent.mk 10%float 10%float.

(** A 2x2 red canvas shown at its natural size, and the click on the
    bottom-right corner of the shown image, at (displayWidth,
    displayHeight). *)
Definition redCanvas : Canvas.t :=
  markedCanvas 2 2 0 0 [255; 0; 0; 255] [255; 0; 0; 255].

Definition redImage : Image.t :=
  shownImage 2 2 0%float 0%float 2%float 2%float.

Definition cornerClick : MouseEvent.t := MouseEvent.mk 2%float 2%float.

(** The same image collapsed to a width of 0. *)
Definition collapsedImage : Image.t :=
  shownImage 2 2 0%float 0%float 0%float 2%float.

(** The 2x1 image red, green on its canvas, shown at 98x49, and the click
    at display coordinate (49,0), the middle of the shown width. *)
Definition redGreenCanvas : Canvas.t :=
  Canvas.mk 2 1 [255; 0; 0; 255;  0; 255; 0; 255] true.

Definition stretchedImage : Image.t :=
  shownImage 2 1 0%float 0%float 98%float 49%float.

Definition clickAt490 : MouseEvent.t := MouseEvent.mk 49%float 0%float.

(** ** The rest of [App] *)

(** The "Pick Color" / "Cancel" button of lines 281-287:
    [setIsPicking((prev) => !prev)]. *)
Definition togglePicking (st : AppState) : AppState :=
  mkAppState (colors st) (customColors st) (negb (isPicking st))
             (pickedColor st).

(** The image of line 79, [new Image()], once it has loaded: its size and
    [raster], the pixels the canvas holds after [drawImage(image, 0, 0)],
    four bytes each, row-major. *)
Module LoadedImage.
Record t := mk { width : Z; height : Z; raster : list Z }.
End LoadedImage.

Definition validImage (image : LoadedImage.t) : Prop :=
  0 < LoadedImage.width image /\ 0 < LoadedImage.height image
  /\ Z.of_nat (List.length (LoadedImage.raster image))
     = 4 * LoadedImage.width image * LoadedImage.height image
  /\ Forall byte (LoadedImage.raster image).

(** Lines 44-46: the canvas takes the size of the image, which clears it,
    and the image is drawn on it. *)
Definition drawOn (canvas : Canvas.t) (image : LoadedImage.t) : Canvas.t :=
  Canvas.mk (LoadedImage.width image) (LoadedImage.height image)
            (LoadedImage.raster image) (Canvas.context2d canvas).

(** The whole callback [extractColors] (lines 37-71) with the canvas it
    writes to.  [getImageData(0, 0, w, h)] throws when [w] or [h] is 0 and
    otherwise gives the whole bitmap. *)
Definition extractColorsOnCanvas (st : AppState) (canvasRef : option Canvas.t)
    (imageElement : LoadedImage.t) : outcome * option Canvas.t :=
  match canvasRef with
  | None => (Returns st, None)
  | Some canvas =>
      if negb (Canvas.context2d canvas) then (Returns st, Some canvas)
      else
        let canvas' := drawOn canvas imageElement in
        if (Canvas.width canvas' =? 0) || (Canvas.height canvas' =? 0)
        then (Throws, Some canvas')
        else (Returns (extractColors st (Canvas.bitmap canvas')),
              Some canvas')
  end.

(** The application and its canvas. *)
Record World := mkWorld {
  appState : AppState;
  canvasElement : option Canvas.t
}.

(** What happens to the application: an image finishes loading (line 82),
    the pick button is pressed (line 282), the shown image is clicked (line
    297). *)
Inductive event : Type :=
  | ImageLoaded (image : LoadedImage.t)
  | PickPressed
  | ImageClicked (imageRef : option Image.t) (e : MouseEvent.t) (now : Z).

(** One event.  A handler that throws has set no state. *)
Definition step (w : World) (ev : event) : World :=
  match ev with
  | ImageLoaded image =>
      match extractColorsOnCanvas (appState w) (canvasElement w) image with
      | (Returns st, cv) => mkWorld st cv
      | (Throws, cv) => mkWorld (appState w) cv
      end
  | PickPressed => mkWorld (togglePicking (appState w)) (canvasElement w)
  | ImageClicked imageRef e now =>
      match getColorAtPoint (appState w) (canvasElement w) imageRef e now with
      | Returns st => mkWorld st (canvasElement w)
      | Throws => w
      end
  end.

Definition run (w : World) (evs : list event) : World :=
  fold_left step evs w.

Definition isPickPressed (ev : event) : bool :=
  match ev with
  | PickPressed => true
  | _ => false
  end.

Definition isImageLoaded (ev : event) : bool :=
  match ev with
  | ImageLoaded _ => true
  | _ => false
  end.

(** [1] while picking, [0] otherwise. *)
Definition armed (st : AppState) : nat := if isPicking st then 1%nat else 0%nat.

(** The copy confirmation (lines 119-123): [copiedColor] and the timeouts
    that are pending, oldest first, each with the time it is due. *)
Record CopyState := mkCopyState {
  copiedColor : option string;
  timeouts : list Z
}.

(** [copyToClipboard(color)] at time [now]: [setCopiedColor(color)] and
    [setTimeout(() => setCopiedColor(null), 2000)]. *)
Definition copyToClipboard (cs : CopyState) (color : string) (now : Z)
  : CopyState :=
  mkCopyState (Some color) (timeouts cs ++ [now + 2000]).

(** The oldest pending timeout runs: [setCopiedColor(null)]. *)
Definition timeoutFires (cs : CopyState) : CopyState :=
  match timeouts cs with
  | [] => cs
  | _ :: rest => mkCopyState None rest
  end.

(** Whether the swatch of [hex] shows the check mark (lines 202, 343):
    [copiedColor === color.hex]. *)
Definition showsCheck (cs : CopyState) (hex : string) : bool :=
  match copiedColor cs with
  | Some c => String.eqb c hex
  | None => false
  end.

(** [String.prototype.toUpperCase] on the characters of a hex string: the
    letters [a]-[z] are raised, the digits and ["#"] stay. *)
Definition upperChar (c : ascii) : ascii :=
  let n := N_of_ascii c in
  if ((97 <=? n) && (n <=? 122))%N then ascii_of_N (n - 32) else c.

Fixpoint toUpperCase (s : string) : string :=
  match s with
  | EmptyString => EmptyString
  | String c rest => String (upperChar c) (toUpperCase rest)
  end.

(** The label of a swatch (lines 197, 338): [color.hex.toUpperCase()]. *)
Definition swatchLabel (hex : string) : string := toUpperCase hex.

(** The digits of the label. *)
Definition upperHexDigit (d : Z) : ascii :=
  nth (Z.to_nat d) (list_ascii_of_string "0123456789ABCDEF") "0"%char.

Definition upperByteDigits (c : Z) : string :=
  String (upperHexDigit (c / 16))
         (String (upperHexDigit (c mod 16)) EmptyString).

(** ** More sample buffers *)

(** [n] pixels of one colour. *)
Fixpoint uniformImage (r g b a : Z) (n : nat) : list Z :=
  match n with
  | O => []
  | S n' => r :: g :: b :: a :: uniformImage r g b a n'
  end.

(** Eight pixels of seven colours: the first colour twice. *)
Definition sevenColours : list Z :=
  [1; 0; 0; 255;  1; 0; 0; 255;  2; 0; 0; 255;  3; 0; 0; 255;
   4; 0; 0; 255;  5; 0; 0; 255;  6; 0; 0; 255;  7; 0; 0; 255].

(** [redRedGreen] mirrored. *)
Definition greenRedRed : list Z :=
  [0; 255; 0; 255;  255; 0; 0; 255;  255; 0; 0; 255].

(** The 4x4 image of [smallCanvas] as a loaded image. *)
Definition smallLoaded : LoadedImage.t :=
  LoadedImage.mk 4 4 (Canvas.bitmap smallCanvas).

(** ** The percentages as the code stores them

    Lines 50 and 62-68 once more, with [count / totalPixels * 100] in the
    doubles of the language. *)

(** [imageData.length / 4], line 50. *)
Definition totalPixelsDouble (imageData : list Z) : JS.number :=
  (JS.ofInteger (Z.of_nat (List.length imageData)) / 4)%float.

(** Line 65: [(count / totalPixels) * 100]. *)
Definition percentageDouble (total : JS.number) (count : Z) : JS.number :=
  (JS.ofInteger count / total * 100)%float.

(** [Array.prototype.sort(cmp)] for a comparator that returns a double:
    [x] stays in front of a later [y] unless [cmp x y > 0]. *)
Fixpoint insertByDouble {A : Type} (cmp : A -> A -> JS.number) (x : A)
    (l : list A) : list A :=
  match l with
  | [] => [x]
  | y :: l' =>
      if PrimFloat.ltb 0 (cmp x y) then y :: insertByDouble cmp x l'
      else x :: l
  end.

Definition sortDouble {A : Type} (cmp : A -> A -> JS.number) (l : list A)
  : list A :=
  fold_right (insertByDouble cmp) [] l.

(** Lines 62-68: the hex strings with the doubles that are returned. *)
Definition rankedDoubles (imageData : list Z) : list (string * JS.number) :=
  firstn 6
    (sortDouble (fun a b => (snd b - snd a)%float)
       (map (fun entry : string * Z =>
               let '(hex, count) := entry in
               (hex, percentageDouble (totalPixelsDouble imageData) count))
            (StringMap.entries (countColors imageData [])))).

(** The sum of the values of these doubles. *)
Definition sumOfDoubles (l : list (string * JS.number)) : Q :=
  fold_right (fun entry acc => exact (snd entry) + acc)%Q 0%Q l.


(** ** Lines 49-68 on the heap

    The same lines as a program over the two objects they touch: the array
    [imageData], which is read by index, and the map, which is created,
    read and written. *)

Record Heap := mkHeap {
  heapData : list Z;          (* the [Uint8ClampedArray] *)
  heapMap : StringMap.t       (* the [Map] last created *)
}.

Definition M (A : Type) : Type := Heap -> A * Heap.

Definition ret {A : Type} (a : A) : M A := fun h => (a, h).

Definition bind {A B : Type} (m : M A) (k : A -> M B) : M B :=
  fun h => let '(a, h') := m h in k a h'.

Notation "x <- m ;; k" := (bind m (fun x => k))
  (at level 61, m at next level, right associativity).
Notation "m ;; k" := (bind m (fun _ => k))
  (at level 61, right associativity).

(** [imageData[i]]; the loop reads inside the array, its length being a
    multiple of four. *)
Definition readData (i : nat) : M Z :=
  fun h => (nth i (heapData h) 0, h).

(** [imageData.length]. *)
Definition dataLength : M nat :=
  fun h => (List.length (heapData h), h).

(** [new Map()]. *)
Definition newMap : M unit :=
  fun h => (tt, mkHeap (heapData h) []).

(** [colorMap.get(k)]. *)
Definition mapGet (k : string) : M (option Z) :=
  fun h => (StringMap.get (heapMap h) k, h).

(** [colorMap.set(k, v)]. *)
Definition mapSet (k : string) (v : Z) : M unit :=
  fun h => (tt, mkHeap (heapData h) (StringMap.set (heapMap h) k v)).

(** [colorMap.entries()]. *)
Definition mapEntries : M (list (string * Z)) :=
  fun h => (StringMap.entries (heapMap h), h).

(** The loop of lines 52-60 from index [i]; [fuel] bounds the number of
    rounds. *)
Fixpoint countLoop (fuel i : nat) : M unit :=
  match fuel with
  | O => ret tt
  | S fuel' =>
      n <- dataLength ;;
      if (i <? n)%nat then
        r <- readData i ;;
        g <- readData (i + 1) ;;
        b <- readData (i + 2) ;;
        count <- mapGet (hexOfRGB r g b) ;;
        mapSet (hexOfRGB r g b) (JS.orZero count + 1) ;;
        countLoop fuel' (i + 4)
      else ret tt
  end.

(** Lines 49-68: the call on the heap, giving [sortedColors]. *)
Definition extractOnHeap : M (list Color.t) :=
  newMap ;;
  n <- dataLength ;;
  countLoop n 0 ;;
  entries <- mapEntries ;;
  ret (firstn 6
         (sort byPercentageDesc
            (map (toColor (inject_Z (Z.of_nat n) / 4)) entries))).

(** The specification's zero-area case as a statement about a call of the
    callback: it returns, with the empty list as the colours. *)
Definition yieldsEmptyList (st : AppState) (canvasRef : option Canvas.t)
    (imageElement : LoadedImage.t) : Prop :=
  exists st' canvasRef',
    extractColorsOnCanvas st canvasRef imageElement = (Returns st', canvasRef')
    /\ colors st' = [].

(** The number of pixels that have one of the colours of [l]. *)
Definition pixelsOf (imageData : list Z) (l : list Color.t) : nat :=
  fold_right (fun c acc => occurrences (Color.hex c) imageData + acc)%nat
             0%nat l.

(** Eleven pixels: nine of one colour, two of another. *)
Definition nineAndTwo : list Z :=
  uniformImage 1 0 0 255 9 ++ uniformImage 2 0 0 255 2.

(** * Properties *)

(** ** Hexadecimal formatting *)

Section ToString16.

Lemma append_snoc (s : string) (c : ascii) (acc : string) :
  ((s ++ String c EmptyString) ++ acc)%string = (s ++ String c acc)%string.
Proof.
  induction s as [|a s IH]; simpl; [reflexivity|]. now rewrite IH.
Qed.

Lemma append_empty_r (s : string) : (s ++ EmptyString)%string = s.
Proof.
  induction s as [|a s IH]; simpl; [reflexivity|]. now rewrite IH.
Qed.

Lemma toString16_aux_S (k : nat) (n : Z) (acc : string) :
  JS.toString16_aux (S k) n acc
  = if n <? 16 then String (JS.hexDigit n) acc
    else JS.toString16_aux k (n / 16) (String (JS.hexDigit (n mod 16)) acc).
Proof. reflexivity. Qed.

Lemma toString16_aux_acc (f : nat) :
  forall n acc,
    JS.toString16_aux (S f) n acc
    = (JS.toString16_aux (S f) n EmptyString ++ acc)%string.
Proof.
  induction f as [|f IH]; intros n acc.
  - simpl. destruct (n <? 16); reflexivity.
  - rewrite (toString16_aux_S (S f) n acc).
    rewrite (toString16_aux_S (S f) n EmptyString).
    destruct (n <? 16); [reflexivity|].
    rewrite (IH _ (String _ acc)), (IH _ (String _ EmptyString)).
    now rewrite append_snoc.
Qed.

Lemma toString16_aux_fuel (f1 : nat) :
  forall f2 n acc,
    0 <= n -> n < 16 ^ Z.of_nat (S f1) -> n < 16 ^ Z.of_nat (S f2) ->
    JS.toString16_aux (S f1) n acc = JS.toString16_aux (S f2) n acc.
Proof.
  induction f1 as [|f1 IH]; intros f2 n acc Hn H1 H2.
  - change (16 ^ Z.of_nat 1) with 16 in H1.
    cbn [JS.toString16_aux].
    destruct (Z.ltb_spec n 16); [reflexivity|lia].
  - rewrite (toString16_aux_S (S f1)), (toString16_aux_S f2).
    destruct (Z.ltb_spec n 16) as [Hlt|Hge]; [reflexivity|].
    destruct f2 as [|f2].
    + change (16 ^ Z.of_nat 1) with 16 in H2. lia.
    + assert (Hpow : forall k, 16 ^ Z.of_nat (S k) = 16 * 16 ^ Z.of_nat k).
      { intro k. rewrite Nat2Z.inj_succ, Z.pow_succ_r by lia. reflexivity. }
      apply IH.
      * apply Z.div_pos; lia.
      * apply Z.div_lt_upper_bound; [lia|]. rewrite <- Hpow. exact H1.
      * apply Z.div_lt_upper_bound; [lia|]. rewrite <- Hpow. exact H2.
Qed.

Lemma lt_pow16_log2 (n : Z) : 0 <= n -> n < 16 ^ Z.of_nat (S (Z.to_nat (Z.log2 n))).
Proof.
  intro Hn.
  rewrite Nat2Z.inj_succ, Z2Nat.id by apply Z.log2_nonneg.
  destruct (Z.eq_dec n 0) as [->|Hnz].
  - simpl. lia.
  - pose proof (Z.log2_spec n ltac:(lia)) as [_ Hub].
    eapply Z.lt_le_trans; [exact Hub|].
    pose proof (Z.log2_nonneg n).
    change 16 with (2 ^ 4). rewrite <- Z.pow_mul_r by lia.
    apply Z.pow_le_mono_r; lia.
Qed.

Lemma toString16_digit (d : Z) :
  0 <= d < 16 -> JS.toString16 d = String (JS.hexDigit d) EmptyString.
Proof.
  intros [H0 H1]. unfold JS.toString16.
  destruct (Z.ltb_spec d 0); [lia|].
  cbn [JS.toString16_aux].
  destruct (Z.ltb_spec d 16); [reflexivity|lia].
Qed.

Lemma toString16_step (q d : Z) :
  1 <= q -> 0 <= d < 16 ->
  JS.toString16 (16 * q + d)
  = (JS.toString16 q ++ String (JS.hexDigit d) EmptyString)%string.
Proof.
  intros Hq Hd. unfold JS.toString16.
  destruct (Z.ltb_spec (16 * q + d) 0); [lia|].
  destruct (Z.ltb_spec q 0); [lia|].
  assert (Hdiv : (16 * q + d) / 16 = q).
  { symmetry. apply (Z.div_unique _ 16 q d); lia. }
  assert (Hmod : (16 * q + d) mod 16 = d).
  { symmetry. apply (Z.mod_unique _ 16 q d); lia. }
  assert (Hlog : exists k, Z.to_nat (Z.log2 (16 * q + d)) = S k).
  { assert (4 <= Z.log2 (16 * q + d)).
    { change 4 with (Z.log2 16). apply Z.log2_le_mono. lia. }
    exists (Nat.pred (Z.to_nat (Z.log2 (16 * q + d)))). lia. }
  destruct Hlog as [k Hk].
  pose proof (lt_pow16_log2 (16 * q + d) ltac:(lia)) as Hfuel.
  rewrite Hk in *.
  rewrite (toString16_aux_S (S k)).
  destruct (Z.ltb_spec (16 * q + d) 16); [lia|].
  rewrite Hdiv, Hmod.
  rewrite toString16_aux_acc.
  f_equal.
  apply toString16_aux_fuel; [lia| |apply lt_pow16_log2; lia].
  assert (Hpow : 16 ^ Z.of_nat (S (S k)) = 16 * 16 ^ Z.of_nat (S k)).
  { rewrite (Nat2Z.inj_succ (S k)), Z.pow_succ_r by lia. reflexivity. }
  rewrite Hpow in Hfuel. lia.
Qed.

End ToString16.

(** ** The hex string of a pixel *)

Section HexOfRGB.

Lemma toInt32_small (z : Z) : - 2 ^ 31 <= z < 2 ^ 31 -> JS.toInt32 z = z.
Proof.
  intro H. unfold JS.toInt32. rewrite Z.mod_small; lia.
Qed.

Lemma shl_byte (c k : Z) :
  byte c -> 0 <= k <= 16 -> JS.shl c k = c * 2 ^ k.
Proof.
  intros Hc Hk. unfold byte in Hc. unfold JS.shl.
  rewrite (toInt32_small c) by lia.
  rewrite (Z.mod_small k 32) by lia.
  rewrite Z.shiftl_mul_pow2 by lia.
  apply toInt32_small.
  assert (0 < 2 ^ k) by (apply Z.pow_pos_nonneg; lia).
  assert (2 ^ k <= 2 ^ 16) by (apply Z.pow_le_mono_r; lia).
  change (2 ^ 16) with 65536 in *. nia.
Qed.

Lemma packed_rgb (r g b : Z) :
  byte r -> byte g -> byte b ->
  JS.shl 1 24 + JS.shl r 16 + JS.shl g 8 + b
  = 16 * (16 * (16 * (16 * (16 * (16 * 1 + r / 16) + r mod 16) + g / 16)
                + g mod 16) + b / 16) + b mod 16.
Proof.
  intros Hr Hg Hb.
  rewrite (shl_byte r 16), (shl_byte g 8) by (assumption || lia).
  change (JS.shl 1 24) with 16777216.
  change (2 ^ 16) with 65536. change (2 ^ 8) with 256.
  pose proof (Z.div_mod r 16 ltac:(lia)).
  pose proof (Z.div_mod g 16 ltac:(lia)).
  pose proof (Z.div_mod b 16 ltac:(lia)).
  lia.
Qed.

Lemma nibbles (c : Z) : byte c -> 0 <= c / 16 < 16 /\ 0 <= c mod 16 < 16.
Proof.
  unfold byte. intro H. split.
  - split; [apply Z.div_pos; lia | apply Z.div_lt_upper_bound; lia].
  - apply Z.mod_pos_bound. lia.
Qed.

Lemma hexOfRGB_digits (r g b : Z) :
  byte r -> byte g -> byte b ->
  hexOfRGB r g b
  = String "#" (byteDigits r ++ byteDigits g ++ byteDigits b)%string.
Proof.
  intros Hr Hg Hb. unfold hexOfRGB.
  rewrite packed_rgb by assumption.
  destruct (nibbles r Hr) as [Hr1 Hr0].
  destruct (nibbles g Hg) as [Hg1 Hg0].
  destruct (nibbles b Hb) as [Hb1 Hb0].
  rewrite !toString16_step by lia.
  rewrite (toString16_digit 1) by lia.
  reflexivity.
Qed.

Lemma hexDigit_inj (d1 d2 : Z) :
  0 <= d1 < 16 -> 0 <= d2 < 16 -> JS.hexDigit d1 = JS.hexDigit d2 -> d1 = d2.
Proof.
  intros H1 H2 E.
  assert (C1 : d1 = 0 \/ d1 = 1 \/ d1 = 2 \/ d1 = 3 \/ d1 = 4 \/ d1 = 5
               \/ d1 = 6 \/ d1 = 7 \/ d1 = 8 \/ d1 = 9 \/ d1 = 10 \/ d1 = 11
               \/ d1 = 12 \/ d1 = 13 \/ d1 = 14 \/ d1 = 15) by lia.
  assert (C2 : d2 = 0 \/ d2 = 1 \/ d2 = 2 \/ d2 = 3 \/ d2 = 4 \/ d2 = 5
               \/ d2 = 6 \/ d2 = 7 \/ d2 = 8 \/ d2 = 9 \/ d2 = 10 \/ d2 = 11
               \/ d2 = 12 \/ d2 = 13 \/ d2 = 14 \/ d2 = 15) by lia.
  clear H1 H2.
  repeat (destruct C1 as [C1|C1]); subst d1;
    repeat (destruct C2 as [C2|C2]); subst d2;
    first [reflexivity | discriminate E].
Qed.

Lemma byteDigits_inj (c1 c2 : Z) (s1 s2 : string) :
  byte c1 -> byte c2 ->
  (byteDigits c1 ++ s1)%string = (byteDigits c2 ++ s2)%string ->
  c1 = c2 /\ s1 = s2.
Proof.
  intros H1 H2 E. unfold byteDigits in E. simpl in E.
  injection E as Ehi Elo Es.
  destruct (nibbles c1 H1) as [? ?]. destruct (nibbles c2 H2) as [? ?].
  apply hexDigit_inj in Ehi; [|assumption..].
  apply hexDigit_inj in Elo; [|assumption..].
  split; [|assumption].
  rewrite (Z.div_mod c1 16), (Z.div_mod c2 16) by lia. congruence.
Qed.

Lemma hexOfRGB_inj (r g b r' g' b' : Z) :
  byte r -> byte g -> byte b -> byte r' -> byte g' -> byte b' ->
  hexOfRGB r g b = hexOfRGB r' g' b' -> r = r' /\ g = g' /\ b = b'.
Proof.
  intros Hr Hg Hb Hr' Hg' Hb' E.
  rewrite !hexOfRGB_digits in E by assumption.
  apply (f_equal JS.slice1) in E. cbn [JS.slice1] in E.
  apply byteDigits_inj in E; [|assumption..]. destruct E as [-> E].
  apply byteDigits_inj in E; [|assumption..]. destruct E as [-> E].
  rewrite <- (append_empty_r (byteDigits b)) in E.
  rewrite <- (append_empty_r (byteDigits b')) in E.
  apply byteDigits_inj in E; [|assumption..]. destruct E as [-> _].
  auto.
Qed.

End HexOfRGB.

(** ** The histogram *)

Section Histogram.

Lemma chunk4_ind (P : list Z -> Prop) :
  (forall d, (List.length d < 4)%nat -> P d) ->
  (forall r g b a rest, P rest -> P (r :: g :: b :: a :: rest)) ->
  forall d, P d.
Proof.
  intros Hsmall Hstep.
  assert (H : forall n d, (List.length d <= n)%nat -> P d).
  { induction n as [|n IH]; intros d Hd.
    - apply Hsmall. lia.
    - destruct d as [|r [|g [|b [|a rest]]]]; try (apply Hsmall; simpl; lia).
      apply Hstep, IH. simpl in Hd. lia. }
  intro d. apply (H (List.length d)). lia.
Qed.

Lemma countColors_fold (imageData : list Z) :
  forall m, countColors imageData m = fold_left countKey (pixelKeys imageData) m.
Proof.
  induction imageData as [d Hd | r g b a rest IH] using chunk4_ind; intro m.
  - destruct d as [|r [|g [|b [|a rest]]]]; try reflexivity.
    simpl in Hd. lia.
  - cbn [countColors]. rewrite IH. reflexivity.
Qed.

Lemma pixels_length (imageData : list Z) (n : nat) :
  List.length imageData = (4 * n)%nat -> List.length (pixels imageData) = n.
Proof.
  revert n.
  induction imageData as [d Hd | r g b a rest IH] using chunk4_ind; intros n Hn.
  - destruct d as [|r [|g [|b [|a rest]]]]; cbn [pixels List.length] in *; lia.
  - cbn [pixels List.length] in *. destruct n as [|n]; [lia|].
    rewrite (IH n); lia.
Qed.

Lemma pixels_bytes (imageData : list Z) :
  Forall byte imageData ->
  Forall (fun p => let '(r, g, b) := p in byte r /\ byte g /\ byte b)
         (pixels imageData).
Proof.
  induction imageData as [d Hd | r g b a rest IH] using chunk4_ind; intro H.
  - destruct d as [|r [|g [|b [|a rest]]]];
      try (cbn [List.length] in Hd; lia); constructor.
  - cbn [pixels].
    inversion H as [|? ? Hr H1]; subst. inversion H1 as [|? ? Hg H2]; subst.
    inversion H2 as [|? ? Hb H3]; subst. inversion H3 as [|? ? _ H4]; subst.
    constructor; auto.
Qed.

Lemma keys_set (m : StringMap.t) (k : string) (v : Z) :
  StringMap.keys (StringMap.set m k v)
  = if in_dec string_dec k (StringMap.keys m)
    then StringMap.keys m else StringMap.keys m ++ [k].
Proof.
  induction m as [|[k' v'] m IH]; cbn [StringMap.set StringMap.keys map fst].
  - destruct (in_dec string_dec k []) as [[]|_]. reflexivity.
  - destruct (String.eqb_spec k' k) as [->|Hne].
    + cbn [StringMap.keys map fst].
      destruct (in_dec string_dec k (k :: map fst m)) as [_|Hn];
        [reflexivity | exfalso; apply Hn; now left].
    + cbn [StringMap.keys map fst]. fold (StringMap.keys m).
      fold (StringMap.keys (StringMap.set m k v)). rewrite IH.
      destruct (in_dec string_dec k (StringMap.keys m)) as [Hi|Hn];
        destruct (in_dec string_dec k (k' :: StringMap.keys m)) as [Hi'|Hn'];
        try reflexivity.
      * exfalso. apply Hn'. now right.
      * exfalso. destruct Hi' as [E|Hi']; [congruence | contradiction].
Qed.

Lemma get_set (m : StringMap.t) (k k' : string) (v : Z) :
  StringMap.get (StringMap.set m k v) k'
  = if String.eqb k k' then Some v else StringMap.get m k'.
Proof.
  induction m as [|[k0 v0] m IH]; cbn [StringMap.set StringMap.get].
  - destruct (String.eqb_spec k k'); reflexivity.
  - destruct (String.eqb_spec k0 k) as [->|Hne]; cbn [StringMap.get].
    + destruct (String.eqb_spec k k'); reflexivity.
    + rewrite IH.
      destruct (String.eqb_spec k0 k') as [->|Hne'];
        destruct (String.eqb_spec k k'); try reflexivity. congruence.
Qed.

Lemma sumCounts_set (m : StringMap.t) (k : string) (v : Z) :
  sumCounts (StringMap.set m k v)
  = sumCounts m - JS.orZero (StringMap.get m k) + v.
Proof.
  induction m as [|[k0 v0] m IH];
    cbn [StringMap.set StringMap.get sumCounts fold_right snd JS.orZero].
  - lia.
  - destruct (String.eqb_spec k0 k) as [->|Hne];
      cbn [sumCounts fold_right snd JS.orZero].
    + lia.
    + fold (sumCounts (StringMap.set m k v)). fold (sumCounts m).
      rewrite IH. lia.
Qed.

Lemma get_In (m : StringMap.t) (k : string) (v : Z) :
  NoDup (StringMap.keys m) -> In (k, v) m -> StringMap.get m k = Some v.
Proof.
  induction m as [|[k0 v0] m IH]; intros Hnd Hin; [contradiction|].
  cbn [StringMap.get]. cbn [StringMap.keys map fst] in Hnd.
  inversion Hnd as [|? ? Hnotin Hnd']; subst.
  destruct Hin as [E|Hin].
  - injection E as -> ->. now rewrite String.eqb_refl.
  - destruct (String.eqb_spec k0 k) as [->|Hne].
    + exfalso. apply Hnotin. apply (in_map fst) in Hin. exact Hin.
    + apply IH; assumption.
Qed.

(** The keys of the map grow at the end only. *)
Lemma keys_fold_extends (ks : list string) :
  forall m, exists ext,
    StringMap.keys (fold_left countKey ks m) = StringMap.keys m ++ ext.
Proof.
  induction ks as [|k ks IH]; intro m; cbn [fold_left].
  - exists []. now rewrite app_nil_r.
  - destruct (IH (countKey m k)) as [ext Hext]. rewrite Hext.
    unfold countKey. rewrite keys_set.
    destruct (in_dec string_dec k (StringMap.keys m)).
    + now exists ext.
    + exists (k :: ext). now rewrite <- app_assoc.
Qed.

Lemma keys_fold_In (ks : list string) :
  forall m k,
    In k (StringMap.keys (fold_left countKey ks m))
    <-> In k (StringMap.keys m) \/ In k ks.
Proof.
  induction ks as [|k0 ks IH]; intros m k; cbn [fold_left].
  - simpl. tauto.
  - rewrite IH. unfold countKey. rewrite keys_set.
    destruct (in_dec string_dec k0 (StringMap.keys m)) as [Hi|Hn].
    + simpl. split; [tauto|]. intros [H|[->|H]]; tauto.
    + rewrite in_app_iff. simpl. tauto.
Qed.

Lemma keys_fold_NoDup (ks : list string) :
  forall m, NoDup (StringMap.keys m) ->
            NoDup (StringMap.keys (fold_left countKey ks m)).
Proof.
  induction ks as [|k ks IH]; intros m Hnd; cbn [fold_left]; [assumption|].
  apply IH. unfold countKey. rewrite keys_set.
  destruct (in_dec string_dec k (StringMap.keys m)) as [Hi|Hn]; [assumption|].
  apply NoDup_app; [assumption | repeat constructor; intros [] | ].
  intros x Hx [<-|[]]. contradiction.
Qed.

Lemma get_fold (ks : list string) :
  forall m k,
    JS.orZero (StringMap.get (fold_left countKey ks m) k)
    = JS.orZero (StringMap.get m k) + Z.of_nat (count_occ string_dec ks k).
Proof.
  induction ks as [|k0 ks IH]; intros m k; cbn [fold_left count_occ].
  - lia.
  - rewrite IH. unfold countKey. rewrite get_set.
    destruct (string_dec k0 k) as [->|Hne].
    + rewrite String.eqb_refl. cbn [JS.orZero]. lia.
    + destruct (String.eqb_spec k0 k); [congruence|]. lia.
Qed.

Lemma sumCounts_fold (ks : list string) :
  forall m, sumCounts (fold_left countKey ks m)
            = sumCounts m + Z.of_nat (List.length ks).
Proof.
  induction ks as [|k ks IH]; intro m; cbn [fold_left List.length].
  - lia.
  - rewrite IH. unfold countKey. rewrite sumCounts_set. lia.
Qed.

(** Every entry of the histogram holds the number of pixels of its key,
    which is at least one. *)
Lemma countColors_entry (imageData : list Z) (k : string) (c : Z) :
  In (k, c) (countColors imageData []) ->
  c = Z.of_nat (occurrences k imageData) /\ In k (pixelKeys imageData).
Proof.
  intro Hin. rewrite countColors_fold in Hin.
  assert (Hk : In k (pixelKeys imageData)).
  { apply (in_map fst) in Hin. cbn [fst] in Hin.
    apply keys_fold_In in Hin. destruct Hin as [[]|H]. exact H. }
  split; [|exact Hk].
  apply get_In in Hin; [|apply keys_fold_NoDup; constructor].
  pose proof (get_fold (pixelKeys imageData) [] k) as Hg.
  rewrite Hin in Hg. cbn [JS.orZero StringMap.get] in Hg.
  unfold occurrences. lia.
Qed.

End Histogram.

(** ** The stable sort *)

Section Sort.

Lemma comparator_le (x y : Color.t) :
  Qle_bool (byPercentageDesc x y) 0 = true <-> notBelow x y.
Proof.
  unfold byPercentageDesc, notBelow. rewrite Qle_bool_iff. split; intro; lra.
Qed.


Lemma insertBy_perm {A : Type} (cmp : A -> A -> Q) (x : A) (l : list A) :
  Permutation (insertBy cmp x l) (x :: l).
Proof.
  induction l as [|y l IH]; cbn [insertBy]; [reflexivity|].
  destruct (Qle_bool (cmp x y) 0); [reflexivity|].
  rewrite IH. apply perm_swap.
Qed.

Lemma sort_perm {A : Type} (cmp : A -> A -> Q) (l : list A) :
  Permutation (sort cmp l) l.
Proof.
  induction l as [|x l IH]; cbn [sort fold_right]; [reflexivity|].
  fold (sort cmp l). rewrite insertBy_perm. now constructor.
Qed.



Lemma firstn_incl {A : Type} (n : nat) (l : list A) (x : A) :
  In x (firstn n l) -> In x l.
Proof.
  intro H. rewrite <- (firstn_skipn n l). apply in_or_app. now left.
Qed.



End Sort.

(** ** Percentages *)

Section Percentages.






End Percentages.

(** ** The extractor *)

Section Extractor.

Lemma histogram_length (imageData : list Z) :
  (List.length (histogram imageData)
   <= List.length (distinctColors imageData))%nat.
Proof.
  unfold histogram, StringMap.entries, distinctColors.
  rewrite length_map, <- (length_map fst).
  rewrite <- (length_map keyOf (nodup rgb_eq_dec (pixels imageData))).
  apply NoDup_incl_length.
  - rewrite countColors_fold. apply (keys_fold_NoDup _ []). constructor.
  - intros k Hk. rewrite countColors_fold in Hk.
    apply (keys_fold_In _ []) in Hk. destruct Hk as [[]|Hk].
    unfold pixelKeys in Hk. apply in_map_iff in Hk.
    destruct Hk as [p [<- Hp]]. apply in_map. now apply nodup_In.
Qed.


Lemma histogram_has_pixel (imageData : list Z) (r g b : Z) :
  In (r, g, b) (pixels imageData) ->
  exists c, In c (histogram imageData) /\ Color.hex c = hexOfRGB r g b.
Proof.
  intro Hp.
  assert (Hk : In (hexOfRGB r g b)
                  (StringMap.keys (countColors imageData []))).
  { rewrite countColors_fold. apply keys_fold_In. right.
    unfold pixelKeys. apply (in_map keyOf) in Hp. exact Hp. }
  unfold StringMap.keys in Hk. apply in_map_iff in Hk.
  destruct Hk as [[k v] [Hkey Hin]]. cbn [fst] in Hkey. subst k.
  exists (toColor (totalPixels imageData) (hexOfRGB r g b, v)). split.
  - unfold histogram, StringMap.entries. now apply in_map.
  - reflexivity.
Qed.



(** On the sample buffers the ranking in doubles is the ranking of the
    exact values. *)
Example rankedDoubles_order :
  map fst (rankedDoubles sevenColours) = map Color.hex (sortedColors sevenColours)
  /\ map fst (rankedDoubles nineAndTwo) = map Color.hex (sortedColors nineAndTwo)
  /\ map fst (rankedDoubles redGreen) = map Color.hex (sortedColors redGreen).
Proof. repeat split; vm_compute; reflexivity. Qed.

(** The alpha byte takes no part: the same three pixels with other alpha
    values give the same list. *)
Example sortedColors_ignores_alpha :
  sortedColors redRedGreenFaded = sortedColors redRedGreen.
Proof. reflexivity. Qed.

(** The same eleven pixels in exact rationals and in doubles. *)
Example nineAndTwo_percentages :
  map Color.percentage (sortedColors nineAndTwo) = [3600 # 44; 800 # 44]
  /\ map snd (rankedDoubles nineAndTwo)
     = [0x1.4745d1745d175p+6%float; 0x1.22e8ba2e8ba2fp+4%float]
  /\ (sumPercentage (sortedColors nineAndTwo) == 100)%Q
  /\ (100 < sumOfDoubles (rankedDoubles nineAndTwo))%Q.
Proof. repeat split; vm_compute; reflexivity. Qed.

(** The end-to-end scenario of the specification: red and green tie at 50
    percent and red, the first in the scan, comes first. *)
Example sortedColors_redGreen :
  sortedColors redGreen
  = [Color.mk "#ff0000" (400 # 8); Color.mk "#00ff00" (400 # 8)]
  /\ (400 # 8 == 50)%Q.
Proof. split; reflexivity. Qed.

(** A uniform image has one entry, of 100 percent. *)
Example sortedColors_uniform :
  map Color.hex (sortedColors (Canvas.bitmap redCanvas))
  = ["#ff0000"%string]
  /\ (sumPercentage (sortedColors (Canvas.bitmap redCanvas)) == 100)%Q.
Proof. split; reflexivity. Qed.

Lemma redRedGreen_valid : validImageData 3 1 redRedGreen.
Proof.
  split; [reflexivity|]. unfold redRedGreen, byte.
  repeat (constructor; [lia|]). constructor.
Defined.






End Extractor.

(** ** Where the extraction is defined, and what it leaves behind *)

Section Purity.

Lemma histogram_total_positive (imageData : list Z) (c : Color.t) :
  In c (histogram imageData) -> (0 < totalPixels imageData)%Q.
Proof.
  unfold histogram, StringMap.entries. intro Hc.
  apply in_map_iff in Hc. destruct Hc as [[k v] [_ Hin]].
  apply countColors_entry in Hin. destruct Hin as [_ Hk].
  unfold totalPixels.
  destruct imageData as [|r [|g [|b [|a rest]]]]; try contradiction.
  cbn [List.length].
  apply Qlt_shift_div_l; [reflexivity|].
  change (0 * 4)%Q with (inject_Z 0 * 4)%Q.
  setoid_replace (inject_Z 0 * 4)%Q with (inject_Z 0) by reflexivity.
  rewrite <- Zlt_Qlt. lia.
Qed.

Lemma sortedColors_nonempty (r g b a : Z) (rest : list Z) :
  sortedColors (r :: g :: b :: a :: rest) <> [].
Proof.
  intro E.
  destruct (histogram_has_pixel (r :: g :: b :: a :: rest) r g b)
    as [c [Hc _]]; [left; reflexivity|].
  assert (Hlen : List.length (sortedColors (r :: g :: b :: a :: rest)) = 0%nat)
    by now rewrite E.
  unfold sortedColors in Hlen. rewrite length_firstn in Hlen.
  rewrite (Permutation_length (sort_perm byPercentageDesc _)) in Hlen.
  destruct (histogram (r :: g :: b :: a :: rest)); [contradiction|].
  cbn [List.length] in Hlen. lia.
Qed.

(** C8, refuted for the zero-area image: the canvas takes the size 0 by 0
    and [getImageData(0, 0, 0, 0)] of line 48 throws, so the callback does
    not return and no empty list is stored. *)
Lemma zero_area_image_throws :
  ~ yieldsEmptyList initialState (Some redCanvas) (LoadedImage.mk 0 0 []).
Proof.
  intros [st' [canvasRef' [Hcall _]]]. discriminate Hcall.
Qed.

(** C8, amended: with a canvas and its context, the callback returns for
    every image of positive width and height, storing the ranking of the
    pixels of the image, which is not empty, and leaving the image on the
    canvas; it throws when the width or the height of the image is 0; and
    whenever a percentage is computed the divisor [totalPixels] is
    positive. *)
Theorem extraction_defined_on_positive_area :
  (forall (st : AppState) (canvas : Canvas.t) (image : LoadedImage.t),
      Canvas.context2d canvas = true ->
      validImage image ->
      extractColorsOnCanvas st (Some canvas) image
      = (Returns (extractColors st (LoadedImage.raster image)),
         Some (drawOn canvas image))
      /\ colors (extractColors st (LoadedImage.raster image))
         = sortedColors (LoadedImage.raster image)
      /\ colors (extractColors st (LoadedImage.raster image)) <> [])
  /\ (forall (st : AppState) (canvas : Canvas.t) (image : LoadedImage.t),
        Canvas.context2d canvas = true ->
        LoadedImage.width image = 0 \/ LoadedImage.height image = 0 ->
        fst (extractColorsOnCanvas st (Some canvas) image) = Throws)
  /\ (forall (imageData : list Z) (c : Color.t),
        In c (histogram imageData) -> (0 < totalPixels imageData)%Q).
Proof.
  split; [|split].
  - intros st canvas image Hctx [Hw [Hh [Hlen _]]].
    split; [|split].
    + unfold extractColorsOnCanvas. rewrite Hctx.
      cbn [negb drawOn Canvas.width Canvas.height Canvas.bitmap].
      destruct (Z.eqb_spec (LoadedImage.width image) 0); [lia|].
      destruct (Z.eqb_spec (LoadedImage.height image) 0); [lia|].
      reflexivity.
    + reflexivity.
    + cbn [extractColors colors].
      destruct (LoadedImage.raster image) as [|r [|g [|b [|a rest]]]];
        cbn [List.length] in Hlen; try nia.
      apply sortedColors_nonempty.
  - intros st canvas image Hctx Hzero.
    unfold extractColorsOnCanvas. rewrite Hctx.
    cbn [negb drawOn Canvas.width Canvas.height Canvas.bitmap].
    destruct Hzero as [-> | ->].
    + reflexivity.
    + rewrite Bool.orb_true_r. reflexivity.
  - exact histogram_total_positive.
Qed.

Lemma smallLoaded_positive : validImage smallLoaded.
Proof.
  unfold validImage, smallLoaded.
  cbn [LoadedImage.width LoadedImage.height LoadedImage.raster].
  repeat split; try lia; try reflexivity.
  apply Forall_forall. intros z Hz. unfold byte.
  repeat (destruct Hz as [<- | Hz]; [lia|]). destruct Hz.
Defined.

Lemma extraction_defined_on_positive_area_witness :
  Canvas.context2d redCanvas = true
  /\ validImage smallLoaded
  /\ extractColorsOnCanvas initialState (Some redCanvas) smallLoaded
     = (Returns (extractColors initialState (LoadedImage.raster smallLoaded)),
        Some (drawOn redCanvas smallLoaded))
  /\ LoadedImage.width (LoadedImage.mk 0 5 []) = 0
  /\ fst (extractColorsOnCanvas initialState (Some redCanvas)
                                (LoadedImage.mk 0 5 [])) = Throws
  /\ In (nth 0 (histogram redRedGreen) (Color.mk EmptyString 0))
        (histogram redRedGreen)
  /\ (0 < totalPixels redRedGreen)%Q.
Proof.
  assert (Hin : In (nth 0 (histogram redRedGreen) (Color.mk EmptyString 0))
                   (histogram redRedGreen))
    by (vm_compute; left; reflexivity).
  split; [reflexivity|]. split; [exact smallLoaded_positive|]. split.
  { exact (proj1 (proj1 extraction_defined_on_positive_area
                    initialState redCanvas smallLoaded eq_refl
                    smallLoaded_positive)). }
  split; [reflexivity|]. split.
  { exact (proj1 (proj2 extraction_defined_on_positive_area)
             initialState redCanvas (LoadedImage.mk 0 5 []) eq_refl
             (or_introl eq_refl)). }
  split; [exact Hin|].
  exact (proj2 (proj2 extraction_defined_on_positive_area) redRedGreen _ Hin).
Defined.

(** *** The call on the heap *)

Lemma skipn_four (d : list Z) :
  forall i : nat,
    (i + 4 <= List.length d)%nat ->
    skipn i d
    = nth i d 0 :: nth (i + 1) d 0 :: nth (i + 2) d 0 :: nth (i + 3) d 0
      :: skipn (i + 4) d.
Proof.
  induction d as [|x d IH]; intros i Hi.
  - cbn [List.length] in Hi. lia.
  - destruct i as [|i].
    + destruct d as [|g [|b [|a rest]]]; cbn [List.length] in Hi; try lia.
      reflexivity.
    + cbn [List.length] in Hi.
      change (skipn (S i) (x :: d)) with (skipn i d).
      rewrite (IH i) by lia.
      replace (S i + 1)%nat with (S (i + 1)) by lia.
      replace (S i + 2)%nat with (S (i + 2)) by lia.
      replace (S i + 3)%nat with (S (i + 3)) by lia.
      replace (S i + 4)%nat with (S (i + 4)) by lia.
      reflexivity.
Qed.

(** The loop does not write to the array. *)
Lemma countLoop_data (fuel : nat) :
  forall (i : nat) (h : Heap),
    heapData (snd (countLoop fuel i h)) = heapData h.
Proof.
  induction fuel as [|fuel IH]; intros i h.
  - reflexivity.
  - cbn [countLoop]. unfold bind, dataLength, readData, mapGet, mapSet, ret.
    destruct (i <? List.length (heapData h))%nat.
    + cbn [heapData heapMap]. rewrite IH. reflexivity.
    + reflexivity.
Qed.

(** On an array of whole pixels the loop counts as [countColors] does. *)
Lemma countLoop_counts (fuel : nat) :
  forall (k i : nat) (d : list Z) (m : StringMap.t),
    (i + 4 * k = List.length d)%nat ->
    (k <= fuel)%nat ->
    countLoop fuel i (mkHeap d m)
    = (tt, mkHeap d (countColors (skipn i d) m)).
Proof.
  induction fuel as [|fuel IH]; intros k i d m Hlen Hk.
  - assert (k = 0)%nat by lia. subst k.
    rewrite skipn_all2 by lia. reflexivity.
  - cbn [countLoop]. unfold bind, dataLength, readData, mapGet, mapSet, ret.
    cbn [heapData heapMap].
    destruct (Nat.ltb_spec i (List.length d)) as [Hlt|Hge].
    + destruct k as [|k]; [lia|]. cbn [heapData heapMap].
      rewrite (IH k (i + 4)%nat) by lia.
      rewrite (skipn_four d i) by lia.
      reflexivity.
    + rewrite skipn_all2 by lia. reflexivity.
Qed.

Lemma extractOnHeap_valid (w h : nat) (hp : Heap) :
  validImageData w h (heapData hp) ->
  extractOnHeap hp
  = (sortedColors (heapData hp),
     mkHeap (heapData hp) (countColors (heapData hp) [])).
Proof.
  intros [Hlen _]. unfold extractOnHeap, bind, newMap, dataLength, mapEntries, ret.
  cbn [heapData heapMap].
  rewrite (countLoop_counts _ (w * h) 0 (heapData hp) []) by lia.
  cbn [skipn heapData heapMap]. reflexivity.
Qed.

Lemma extractOnHeap_data (hp : Heap) :
  heapData (snd (extractOnHeap hp)) = heapData hp.
Proof.
  unfold extractOnHeap, bind, newMap, dataLength, mapEntries, ret.
  cbn [heapData heapMap].
  pose proof (countLoop_data (List.length (heapData hp)) 0
                (mkHeap (heapData hp) [])) as Hd.
  destruct (countLoop (List.length (heapData hp)) 0 (mkHeap (heapData hp) []))
    as [u h']. cbn [snd heapData] in *. exact Hd.
Qed.

(** C9: the call as a program on the heap, where the array is read by index
    and the map is created and filled.  The array is the same after the
    call as before; on an array of [w * h] pixels the list returned is
    [sortedColors] of the samples, whatever map an earlier call left
    behind; hence two heaps with the same samples give the same list,
    entry for entry, and so does a second call on the heap the first one
    leaves. *)
Theorem extractColors_deterministic :
  (forall hp : Heap, heapData (snd (extractOnHeap hp)) = heapData hp)
  /\ (forall (w h : nat) (hp : Heap),
        validImageData w h (heapData hp) ->
        fst (extractOnHeap hp) = sortedColors (heapData hp))
  /\ (forall (w h : nat) (hp1 hp2 : Heap),
        validImageData w h (heapData hp1) ->
        heapData hp1 = heapData hp2 ->
        fst (extractOnHeap hp1) = fst (extractOnHeap hp2))
  /\ (forall (w h : nat) (hp : Heap),
        validImageData w h (heapData hp) ->
        fst (extractOnHeap (snd (extractOnHeap hp))) = fst (extractOnHeap hp)).
Proof.
  split; [exact extractOnHeap_data|]. split; [|split].
  - intros w h hp Hv. now rewrite (extractOnHeap_valid w h hp Hv).
  - intros w h hp1 hp2 Hv E.
    rewrite (extractOnHeap_valid w h hp1 Hv).
    rewrite E in Hv. rewrite (extractOnHeap_valid w h hp2 Hv).
    cbn [fst]. now rewrite E.
  - intros w h hp Hv.
    rewrite (extractOnHeap_valid w h hp Hv). cbn [snd fst].
    rewrite (extractOnHeap_valid w h (mkHeap (heapData hp) _)); [reflexivity|].
    exact Hv.
Qed.

Lemma extractColors_deterministic_witness :
  validImageData 3 1 (heapData (mkHeap redRedGreen [("#123456"%string, 7)]))
  /\ heapData (mkHeap redRedGreen [("#123456"%string, 7)])
     = heapData (mkHeap redRedGreen [])
  /\ fst (extractOnHeap (mkHeap redRedGreen [("#123456"%string, 7)]))
     = fst (extractOnHeap (mkHeap redRedGreen []))
  /\ fst (extractOnHeap (mkHeap redRedGreen []))
     = [Color.mk "#ff0000" (800 # 12); Color.mk "#00ff00" (400 # 12)].
Proof.
  split; [exact redRedGreen_valid|]. split; [reflexivity|]. split.
  - exact (proj1 (proj2 (proj2 extractColors_deterministic)) 3%nat 1%nat
             (mkHeap redRedGreen [("#123456"%string, 7)])
             (mkHeap redRedGreen []) redRedGreen_valid eq_refl).
  - reflexivity.
Defined.

End Purity.

(** ** Ties: the order of first occurrence *)

Section Ties.

Lemma firstIndex_In (k : string) (l : list string) :
  In k l -> exists i, firstIndex k l = Some i.
Proof.
  induction l as [|k' l IH]; intro Hin; [contradiction|].
  cbn [firstIndex]. destruct (String.eqb_spec k' k) as [->|Hne].
  - now exists O.
  - destruct Hin as [E|Hin]; [congruence|].
    destruct (IH Hin) as [i Hi]. rewrite Hi. now exists (S i).
Qed.

Lemma firstIndex_Some_In (k : string) (l : list string) (i : nat) :
  firstIndex k l = Some i -> In k l.
Proof.
  revert i. induction l as [|k' l IH]; intros i H; [discriminate|].
  cbn [firstIndex] in H. destruct (String.eqb_spec k' k) as [->|Hne].
  - now left.
  - right. destruct (firstIndex k l) as [j|]; [|discriminate].
    now apply (IH j).
Qed.

Lemma firstIndex_lt_split (h1 h2 : string) (ks : list string) :
  forall i1 i2,
    firstIndex h1 ks = Some i1 -> firstIndex h2 ks = Some i2 ->
    (i1 < i2)%nat ->
    exists p q, ks = p ++ h1 :: q /\ ~ In h1 p /\ ~ In h2 p /\ In h2 q
                /\ h1 <> h2.
Proof.
  induction ks as [|k ks IH]; intros i1 i2 H1 H2 Hlt; [discriminate|].
  cbn [firstIndex] in H1, H2.
  destruct (String.eqb_spec k h1) as [->|Hne1].
  - injection H1 as <-.
    destruct (String.eqb_spec h1 h2) as [->|Hne2].
    + injection H2 as <-. lia.
    + exists [], ks. repeat split; auto.
      destruct (firstIndex h2 ks) as [j|] eqn:Ej; [|discriminate].
      now apply (firstIndex_Some_In h2 ks j).
  - destruct (firstIndex h1 ks) as [j1|] eqn:E1; [|discriminate].
    injection H1 as <-.
    destruct (String.eqb_spec k h2) as [->|Hne2].
    + injection H2 as <-. lia.
    + destruct (firstIndex h2 ks) as [j2|] eqn:E2; [|discriminate].
      injection H2 as <-.
      destruct (IH j1 j2 eq_refl eq_refl ltac:(lia))
        as [p [q [-> [Hp1 [Hp2 [Hq Hne]]]]]].
      exists (k :: p), q. repeat split; auto.
      * intros [E|Hin]; [congruence | contradiction].
      * intros [E|Hin]; [congruence | contradiction].
Qed.

Lemma before_cons {A : Type} (x y z : A) (l : list A) :
  before x y l -> before x y (z :: l).
Proof.
  intros [l1 [l2 [l3 ->]]]. now exists (z :: l1), l2, l3.
Qed.

Lemma before_head {A : Type} (x y : A) (l : list A) :
  In y l -> before x y (x :: l).
Proof.
  intro Hin. apply in_split in Hin. destruct Hin as [l2 [l3 ->]].
  now exists [], l2, l3.
Qed.

Lemma before_inv {A : Type} (x y z : A) (l : list A) :
  before x y (z :: l) -> (z = x /\ In y l) \/ before x y l.
Proof.
  intros [l1 [l2 [l3 E]]]. destruct l1 as [|w l1]; cbn [app] in E.
  - injection E as -> ->. left. split; [reflexivity|].
    apply in_or_app. right. now left.
  - injection E as -> ->. right. now exists l1, l2, l3.
Qed.

Lemma before_map {A B : Type} (f : A -> B) (x y : A) (l : list A) :
  before x y l -> before (f x) (f y) (map f l).
Proof.
  intros [l1 [l2 [l3 ->]]].
  exists (map f l1), (map f l2), (map f l3).
  rewrite map_app. cbn [map]. rewrite map_app. reflexivity.
Qed.

Lemma before_map_inv {A B : Type} (f : A -> B) (x y : B) (l : list A) :
  before x y (map f l) ->
  exists a b, f a = x /\ f b = y /\ before a b l.
Proof.
  induction l as [|c l IH]; intro H.
  - destruct H as [l1 [l2 [l3 E]]]. destruct l1; discriminate.
  - cbn [map] in H. apply before_inv in H. destruct H as [[Hx Hy]|H].
    + apply in_map_iff in Hy. destruct Hy as [b [Hb Hin]].
      exists c, b. repeat split; auto. now apply before_head.
    + destruct (IH H) as [a [b [Ha [Hb Hab]]]].
      exists a, b. repeat split; auto. now apply before_cons.
Qed.

Lemma insertBy_keeps_before {A : Type} (cmp : A -> A -> Q) (x a b : A)
    (l : list A) :
  before a b l -> before a b (insertBy cmp x l).
Proof.
  induction l as [|y l IH]; intro H.
  - destruct H as [l1 [l2 [l3 E]]]. destruct l1; discriminate.
  - cbn [insertBy]. destruct (Qle_bool (cmp x y) 0).
    + now apply before_cons.
    + apply before_inv in H. destruct H as [[-> Hin]|H].
      * apply before_head.
        apply (Permutation_in b (Permutation_sym (insertBy_perm cmp x l))).
        now right.
      * apply before_cons. now apply IH.
Qed.

Lemma insertBy_before_later {A : Type} (cmp : A -> A -> Q) (x b : A)
    (l : list A) :
  In b l -> Qle_bool (cmp x b) 0 = true -> before x b (insertBy cmp x l).
Proof.
  induction l as [|y l IH]; intros Hin Hle; [contradiction|].
  cbn [insertBy]. destruct (Qle_bool (cmp x y) 0) eqn:E.
  - now apply before_head.
  - destruct Hin as [->|Hin]; [congruence|].
    apply before_cons. now apply IH.
Qed.

(** The sort is stable: what stood in front stays in front unless the
    comparator puts it strictly behind. *)
Lemma sort_stable {A : Type} (cmp : A -> A -> Q) (a b : A) (l : list A) :
  before a b l -> Qle_bool (cmp a b) 0 = true -> before a b (sort cmp l).
Proof.
  induction l as [|y l IH]; intros H Hle.
  - destruct H as [l1 [l2 [l3 E]]]. destruct l1; discriminate.
  - cbn [sort fold_right]. fold (sort cmp l).
    apply before_inv in H. destruct H as [[-> Hin]|H].
    + apply insertBy_before_later; [|exact Hle].
      now apply (Permutation_in b (Permutation_sym (sort_perm cmp l))).
    + apply insertBy_keeps_before. now apply IH.
Qed.

Lemma firstIndex_firstn (k : string) (l : list string) :
  forall n,
    firstIndex k (firstn n l)
    = match firstIndex k l with
      | Some j => if (j <? n)%nat then Some j else None
      | None => None
      end.
Proof.
  induction l as [|k' l IH]; intro n.
  - now rewrite firstn_nil.
  - destruct n as [|n]; cbn [firstn firstIndex].
    + destruct (String.eqb k' k); [reflexivity|].
      destruct (firstIndex k l); reflexivity.
    + destruct (String.eqb k' k); [reflexivity|].
      rewrite IH. destruct (firstIndex k l) as [j|]; [|reflexivity].
      cbn [option_map]. change (S j <? S n)%nat with (j <? n)%nat.
      destruct (j <? n)%nat; reflexivity.
Qed.

Lemma firstIndex_before (h1 h2 : string) (l : list string) :
  NoDup l -> before h1 h2 l ->
  exists j1 j2, firstIndex h1 l = Some j1 /\ firstIndex h2 l = Some j2
                /\ (j1 < j2)%nat.
Proof.
  intros Hnd [l1 [l2 [l3 ->]]].
  induction l1 as [|y l1 IH]; cbn [app] in *.
  - inversion Hnd as [|? ? Hnotin _]; subst.
    assert (Hin : In h2 (l2 ++ h2 :: l3)) by (apply in_or_app; right; now left).
    assert (Hne : h1 <> h2) by (intros ->; contradiction).
    destruct (firstIndex_In h2 _ Hin) as [j Hj].
    exists O, (S j). cbn [firstIndex]. rewrite String.eqb_refl.
    destruct (String.eqb_spec h1 h2); [contradiction|].
    rewrite Hj. repeat split. lia.
  - inversion Hnd as [|? ? Hnotin Hnd']; subst.
    destruct (IH Hnd') as [j1 [j2 [H1 [H2 Hlt]]]].
    exists (S j1), (S j2). cbn [firstIndex].
    destruct (String.eqb_spec y h1) as [->|_].
    + exfalso. apply Hnotin. apply in_or_app. right. now left.
    + destruct (String.eqb_spec y h2) as [->|_].
      * exfalso. apply Hnotin. apply in_or_app. right. right.
        apply in_or_app. right. now left.
      * rewrite H1, H2. repeat split. lia.
Qed.

(** In the map the keys stand in the order of their first pixel. *)
Lemma keys_before (h1 h2 : string) (p q : list string) :
  ~ In h1 p -> ~ In h2 p -> In h2 q -> h1 <> h2 ->
  before h1 h2 (StringMap.keys (fold_left countKey (p ++ h1 :: q) [])).
Proof.
  intros Hp1 Hp2 Hq Hne.
  rewrite fold_left_app. cbn [fold_left].
  set (m1 := fold_left countKey p []).
  assert (Hk1 : ~ In h1 (StringMap.keys m1)).
  { intro H. apply keys_fold_In in H. destruct H as [[]|H]. contradiction. }
  assert (Hk2 : ~ In h2 (StringMap.keys m1)).
  { intro H. apply keys_fold_In in H. destruct H as [[]|H]. contradiction. }
  destruct (keys_fold_extends q (countKey m1 h1)) as [ext Hext].
  assert (Hin : In h2 (StringMap.keys (fold_left countKey q (countKey m1 h1)))).
  { apply keys_fold_In. now right. }
  rewrite Hext in Hin |- *.
  unfold countKey in Hin |- * at 1. rewrite keys_set in Hin |- *.
  destruct (in_dec string_dec h1 (StringMap.keys m1)); [contradiction|].
  rewrite !in_app_iff in Hin. destruct Hin as [[Hin|[E|[]]]|Hin];
    [contradiction | congruence |].
  apply in_split in Hin. destruct Hin as [e1 [e2 ->]].
  exists (StringMap.keys m1), e1, e2. now rewrite <- app_assoc.
Qed.

Lemma hex_histogram (imageData : list Z) :
  map Color.hex (histogram imageData)
  = StringMap.keys (countColors imageData []).
Proof.
  unfold histogram, StringMap.entries, StringMap.keys.
  rewrite map_map. apply map_ext. now intros [k v].
Qed.

Lemma histogram_percentage (imageData : list Z) (c : Color.t) :
  In c (histogram imageData) ->
  Color.percentage c
  = (inject_Z (Z.of_nat (occurrences (Color.hex c) imageData))
     / totalPixels imageData * 100)%Q.
Proof.
  unfold histogram, StringMap.entries. intro Hc.
  apply in_map_iff in Hc. destruct Hc as [[k v] [<- Hin]].
  apply countColors_entry in Hin. destruct Hin as [-> _]. reflexivity.
Qed.

Lemma before_In {A : Type} (x y : A) (l : list A) :
  before x y l -> In x l /\ In y l.
Proof.
  intros [l1 [l2 [l3 ->]]]. split.
  - apply in_or_app. right. now left.
  - apply in_or_app. right. right. apply in_or_app. right. now left.
Qed.

(** C10: of two colours with the same number of pixels, the one whose first
    pixel comes earlier in the scan stands earlier in the result: if the
    later one is among the six returned, so is the earlier one, at a smaller
    index.  On the 2x1 image red, green the result is red, green, although
    ["#00ff00"] is the smaller key. *)
Theorem ties_keep_scan_order :
  (forall (imageData : list Z) (h1 h2 : string) (i1 i2 j2 : nat),
      firstIndex h1 (pixelKeys imageData) = Some i1 ->
      firstIndex h2 (pixelKeys imageData) = Some i2 ->
      (i1 < i2)%nat ->
      occurrences h1 imageData = occurrences h2 imageData ->
      rank h2 (sortedColors imageData) = Some j2 ->
      exists j1, rank h1 (sortedColors imageData) = Some j1 /\ (j1 < j2)%nat)
  /\ map Color.hex (sortedColors redGreen)
     = ["#ff0000"%string; "#00ff00"%string]
  /\ String.ltb "#00ff00" "#ff0000" = true.
Proof.
  split; [|split; reflexivity].
  intros imageData h1 h2 i1 i2 j2 H1 H2 Hlt Hocc Hrank.
  destruct (firstIndex_lt_split h1 h2 _ i1 i2 H1 H2 Hlt)
    as [p [q [Hks [Hp1 [Hp2 [Hq Hne]]]]]].
  assert (Hkeys : before h1 h2 (map Color.hex (histogram imageData))).
  { rewrite hex_histogram, countColors_fold, Hks. now apply keys_before. }
  apply before_map_inv in Hkeys. destruct Hkeys as [a [b [Ha [Hb Hab]]]].
  destruct (before_In a b _ Hab) as [Hina Hinb].
  assert (Hpct : Color.percentage a = Color.percentage b).
  { rewrite (histogram_percentage imageData a Hina).
    rewrite (histogram_percentage imageData b Hinb).
    now rewrite Ha, Hb, Hocc. }
  assert (Hle : Qle_bool (byPercentageDesc a b) 0 = true).
  { apply comparator_le. unfold notBelow. rewrite Hpct. apply Qle_refl. }
  pose proof (sort_stable byPercentageDesc a b _ Hab Hle) as Hsorted.
  apply (before_map Color.hex) in Hsorted. rewrite Ha, Hb in Hsorted.
  set (ranked := map Color.hex (sort byPercentageDesc (histogram imageData))) in *.
  assert (Hnd : NoDup ranked).
  { apply (Permutation_NoDup
             (l := StringMap.keys (countColors imageData []))).
    - rewrite <- hex_histogram. apply Permutation_map.
      apply Permutation_sym, sort_perm.
    - rewrite countColors_fold. apply (keys_fold_NoDup _ []). constructor. }
  destruct (firstIndex_before h1 h2 ranked Hnd Hsorted)
    as [j1 [j2' [Hj1 [Hj2 Hj]]]].
  unfold rank, sortedColors in Hrank |- *.
  rewrite <- firstn_map in Hrank |- *. fold ranked in Hrank |- *.
  rewrite firstIndex_firstn in Hrank |- *.
  rewrite Hj2 in Hrank. rewrite Hj1.
  destruct (Nat.ltb_spec j2' 6) as [Hin6|]; [|discriminate].
  injection Hrank as <-.
  exists j1. split; [|exact Hj].
  destruct (Nat.ltb_spec j1 6); [reflexivity|lia].
Qed.

Lemma ties_keep_scan_order_witness :
  firstIndex "#ff0000" (pixelKeys redGreen) = Some 0%nat
  /\ firstIndex "#00ff00" (pixelKeys redGreen) = Some 1%nat
  /\ occurrences "#ff0000" redGreen = occurrences "#00ff00" redGreen
  /\ rank "#00ff00" (sortedColors redGreen) = Some 1%nat
  /\ exists j1, rank "#ff0000" (sortedColors redGreen) = Some j1
                /\ (j1 < 1)%nat.
Proof.
  split; [reflexivity|]. split; [reflexivity|]. split; [reflexivity|].
  split; [reflexivity|].
  apply (proj1 ties_keep_scan_order redGreen "#ff0000"%string
           "#00ff00"%string 0%nat 1%nat 1%nat);
    first [reflexivity | lia].
Defined.

End Ties.

(** ** The point sampler *)

Section Sampler.

Lemma sourcePoint_eq (image : Image.t) (e : MouseEvent.t) :
  sourcePoint image e
  = ((displayX image e * scaleX image)%float,
     (displayY image e * scaleY image)%float).
Proof. reflexivity. Qed.

(** The handler when both arguments of [getImageData] convert. *)
Lemma getColorAtPoint_reads (st : AppState) (cv : Canvas.t) (image : Image.t)
    (e : MouseEvent.t) (now sx sy : Z) :
  isPicking st = true ->
  Canvas.context2d cv = true ->
  JS.toLong (displayX image e * scaleX image)%float = Some sx ->
  JS.toLong (displayY image e * scaleY image)%float = Some sy ->
  getColorAtPoint st (Some cv) (Some image) e now
  = Returns (recordPick st (hexOfPixel (Canvas.pixelAt cv sx sy)) now).
Proof.
  intros Hpick Hctx Hx Hy. unfold getColorAtPoint.
  rewrite Hpick, Hctx, sourcePoint_eq. cbn [negb].
  unfold Canvas.getImageData. now rewrite Hx, Hy.
Qed.

(** The handler when an argument of [getImageData] does not convert. *)
Lemma getColorAtPoint_throws (st : AppState) (cv : Canvas.t) (image : Image.t)
    (e : MouseEvent.t) (now : Z) :
  isPicking st = true ->
  Canvas.context2d cv = true ->
  JS.toLong (displayX image e * scaleX image)%float = None
  \/ JS.toLong (displayY image e * scaleY image)%float = None ->
  getColorAtPoint st (Some cv) (Some image) e now = Throws.
Proof.
  intros Hpick Hctx H. unfold getColorAtPoint.
  rewrite Hpick, Hctx, sourcePoint_eq. cbn [negb].
  unfold Canvas.getImageData. destruct H as [H|H].
  - now rewrite H.
  - rewrite H.
    now destruct (JS.toLong (displayX image e * scaleX image)%float).
Qed.

Lemma value_mul_nonfinite (x s : JS.number) :
  JS.value s = None -> JS.value (x * s)%float = None.
Proof.
  unfold JS.value. rewrite FloatAxioms.mul_spec. unfold SF64mul, SFmul.
  destruct (Prim2SF s); intro H; try discriminate H;
    destruct (Prim2SF x); reflexivity.
Qed.

Lemma value_div_zero (a : JS.number) : JS.value (a / 0)%float = None.
Proof.
  unfold JS.value. rewrite FloatAxioms.div_spec.
  change (Prim2SF 0) with (S754_zero false). unfold SF64div, SFdiv.
  destruct (Prim2SF a); reflexivity.
Qed.

Lemma toLong_nonfinite (x : JS.number) :
  JS.value x = None -> JS.toLong x = None.
Proof.
  intro H. unfold JS.toLong. now rewrite H.
Qed.

Lemma toLong_truncates (x : JS.number) (z : Z) :
  JS.toLong x = Some z ->
  exists q, JS.value x = Some q /\ z = JS.trunc q
            /\ - 2 ^ 31 <= z <= 2 ^ 31 - 1
            /\ ((0 <= q)%Q -> z = Qfloor q).
Proof.
  unfold JS.toLong. destruct (JS.value x) as [q|]; [|discriminate].
  destruct (Z.leb_spec (- 2 ^ 31) (JS.trunc q)); cbn [andb]; [|discriminate].
  destruct (Z.leb_spec (JS.trunc q) (2 ^ 31 - 1)); [|discriminate].
  intro E. injection E as <-. exists q.
  split; [reflexivity|]. split; [reflexivity|]. split; [lia|].
  intro Hq. unfold JS.trunc. apply Qle_bool_iff in Hq. now rewrite Hq.
Qed.

Lemma pixelAt_outside (cv : Canvas.t) (sx sy : Z) :
  ~ inside cv sx sy -> Canvas.pixelAt cv sx sy = [0; 0; 0; 0].
Proof.
  unfold inside, Canvas.pixelAt. intro H.
  destruct (Z.leb_spec 0 sx); cbn [andb]; [|reflexivity].
  destruct (Z.ltb_spec sx (Canvas.width cv)); cbn [andb]; [|reflexivity].
  destruct (Z.leb_spec 0 sy); cbn [andb]; [|reflexivity].
  destruct (Z.ltb_spec sy (Canvas.height cv)); [|reflexivity].
  exfalso. apply H. lia.
Qed.

Lemma firstn4_skipn (l : list Z) (n : nat) :
  (n + 4 <= List.length l)%nat ->
  exists r g b a, firstn 4 (skipn n l) = [r; g; b; a]
                  /\ In r l /\ In g l /\ In b l.
Proof.
  intro Hlen.
  assert (Hs : (4 <= List.length (skipn n l))%nat)
    by (rewrite length_skipn; lia).
  assert (Hincl : forall x, In x (skipn n l) -> In x l).
  { intros x Hx. rewrite <- (firstn_skipn n l). apply in_or_app. now right. }
  destruct (skipn n l) as [|r [|g [|b [|a rest]]]];
    cbn [List.length] in Hs; try lia.
  exists r, g, b, a. cbn [firstn]. repeat split;
    apply Hincl; cbn [In]; auto.
Qed.

(** What [getImageData] hands back is an RGBA quadruple of bytes. *)
Lemma pixelAt_bytes (cv : Canvas.t) (sx sy : Z) :
  validCanvas cv ->
  exists r g b a, Canvas.pixelAt cv sx sy = [r; g; b; a]
                  /\ byte r /\ byte g /\ byte b.
Proof.
  intros [Hw [Hh [Hlen Hbytes]]]. unfold Canvas.pixelAt.
  destruct (Z.leb_spec 0 sx); cbn [andb];
    [|exists 0, 0, 0, 0; unfold byte; repeat split; lia].
  destruct (Z.ltb_spec sx (Canvas.width cv)); cbn [andb];
    [|exists 0, 0, 0, 0; unfold byte; repeat split; lia].
  destruct (Z.leb_spec 0 sy); cbn [andb];
    [|exists 0, 0, 0, 0; unfold byte; repeat split; lia].
  destruct (Z.ltb_spec sy (Canvas.height cv));
    [|exists 0, 0, 0, 0; unfold byte; repeat split; lia].
  destruct (firstn4_skipn (Canvas.bitmap cv)
              (Z.to_nat (4 * (sy * Canvas.width cv + sx))))
    as [r [g [b [a [E [Hr [Hg Hb]]]]]]].
  { assert (sy * Canvas.width cv + sx + 1
            <= Canvas.height cv * Canvas.width cv) by nia.
    nia. }
  rewrite Forall_forall in Hbytes.
  exists r, g, b, a. rewrite E. auto.
Qed.

Lemma sortedColors_In_histogram (imageData : list Z) (c : Color.t) :
  In c (sortedColors imageData) -> In c (histogram imageData).
Proof.
  unfold sortedColors. intro H. apply firstn_incl in H.
  now apply (Permutation_in c (sort_perm byPercentageDesc _)).
Qed.

(** C1: every hex string is ["#"] followed by the two zero-padded
    hexadecimal digits of the red, the green and the blue channel of one
    pixel, seven characters in all; alpha takes no part; distinct triples
    give distinct strings.  This holds for every entry the extractor returns
    and for every colour the sampler records. *)
Theorem hex_of_one_triple :
  (forall r g b : Z,
      byte r -> byte g -> byte b ->
      hexOfRGB r g b
      = String "#" (byteDigits r ++ byteDigits g ++ byteDigits b)%string
      /\ String.length (hexOfRGB r g b) = 7%nat)
  /\ (forall r g b r' g' b' : Z,
        byte r -> byte g -> byte b -> byte r' -> byte g' -> byte b' ->
        hexOfRGB r g b = hexOfRGB r' g' b' -> (r, g, b) = (r', g', b'))
  /\ (forall (w h : nat) (imageData : list Z) (c : Color.t),
        validImageData w h imageData ->
        In c (sortedColors imageData) ->
        exists r g b,
          In (r, g, b) (pixels imageData)
          /\ byte r /\ byte g /\ byte b
          /\ Color.hex c = hexOfRGB r g b)
  /\ (forall (st st' : AppState) (cv : Canvas.t) (image : Image.t)
             (e : MouseEvent.t) (now : Z),
        validCanvas cv ->
        isPicking st = true ->
        Canvas.context2d cv = true ->
        getColorAtPoint st (Some cv) (Some image) e now = Returns st' ->
        exists sx sy r g b a,
          Canvas.pixelAt cv sx sy = [r; g; b; a]
          /\ byte r /\ byte g /\ byte b
          /\ pickedColor st' = Some (hexOfRGB r g b)
          /\ customColors st'
             = CustomColor.mk (hexOfRGB r g b) now :: customColors st).
Proof.
  split; [|split; [|split]].
  - intros r g b Hr Hg Hb. split; [now apply hexOfRGB_digits|].
    rewrite hexOfRGB_digits by assumption. reflexivity.
  - intros r g b r' g' b' Hr Hg Hb Hr' Hg' Hb' E.
    destruct (hexOfRGB_inj r g b r' g' b' Hr Hg Hb Hr' Hg' Hb' E)
      as [-> [-> ->]].
    reflexivity.
  - intros w h imageData c [_ Hbytes] Hc.
    apply sortedColors_In_histogram in Hc.
    unfold histogram, StringMap.entries in Hc.
    apply in_map_iff in Hc. destruct Hc as [[k v] [<- Hin]].
    apply countColors_entry in Hin. destruct Hin as [_ Hk].
    unfold pixelKeys in Hk. apply in_map_iff in Hk.
    destruct Hk as [[[r g] b] [<- Hp]].
    pose proof (pixels_bytes imageData Hbytes) as Hall.
    rewrite Forall_forall in Hall. specialize (Hall _ Hp).
    destruct Hall as [Hr [Hg Hb]].
    exists r, g, b.
    split; [exact Hp|]. split; [exact Hr|]. split; [exact Hg|].
    split; [exact Hb|]. reflexivity.
  - intros st st' cv image e now Hcv Hpick Hctx Hret.
    unfold getColorAtPoint in Hret. rewrite Hpick, Hctx in Hret.
    cbn [negb] in Hret.
    destruct (sourcePoint image e) as [nx ny].
    unfold Canvas.getImageData in Hret.
    destruct (JS.toLong nx) as [sx|]; [|discriminate].
    destruct (JS.toLong ny) as [sy|]; [|discriminate].
    injection Hret as <-.
    destruct (pixelAt_bytes cv sx sy Hcv) as [r [g [b [a [E [Hr [Hg Hb]]]]]]].
    exists sx, sy, r, g, b, a. rewrite E.
    split; [reflexivity|]. split; [exact Hr|]. split; [exact Hg|].
    split; [exact Hb|]. split; reflexivity.
Qed.

(** C2: with the image shown at its natural size (both scale factors
    exactly 1), a click at display coordinate (2,3) on a buffer whose pixel
    (2,3) is RGB(10,20,30) hands back ["#0a141e"]: it becomes the picked
    colour and the newest entry of the history. *)
Theorem sample_at_scale_one (st : AppState) (cv : Canvas.t) (image : Image.t)
    (e : MouseEvent.t) (now a : Z) :
  isPicking st = true ->
  Canvas.context2d cv = true ->
  scaleX image = 1%float ->
  scaleY image = 1%float ->
  displayX image e = 2%float ->
  displayY image e = 3%float ->
  Canvas.pixelAt cv 2 3 = [10; 20; 30; a] ->
  exists st',
    getColorAtPoint st (Some cv) (Some image) e now = Returns st'
    /\ pickedColor st' = Some "#0a141e"%string
    /\ customColors st'
       = CustomColor.mk "#0a141e" now :: customColors st
    /\ isPicking st' = false
    /\ colors st' = colors st.
Proof.
  intros Hpick Hctx Hsx Hsy Hx Hy Hpixel.
  assert (Ex : JS.toLong (displayX image e * scaleX image)%float = Some 2)
    by (rewrite Hx, Hsx; vm_compute; reflexivity).
  assert (Ey : JS.toLong (displayY image e * scaleY image)%float = Some 3)
    by (rewrite Hy, Hsy; vm_compute; reflexivity).
  rewrite (getColorAtPoint_reads st cv image e now 2 3 Hpick Hctx Ex Ey).
  rewrite Hpixel. eexists. split; [reflexivity|].
  repeat split; reflexivity.
Qed.

Lemma bytes_checked (l : list Z) :
  forallb (fun c => (0 <=? c) && (c <=? 255)) l = true -> Forall byte l.
Proof.
  intro H. rewrite forallb_forall in H. apply Forall_forall.
  intros c Hc. specialize (H c Hc). unfold byte. lia.
Defined.

Lemma smallCanvas_valid : validCanvas smallCanvas.
Proof.
  split; [cbn; lia|]. split; [cbn; lia|]. split; [reflexivity|].
  apply bytes_checked. reflexivity.
Defined.

Lemma hex_of_one_triple_witness :
  (byte 10 /\ byte 20 /\ byte 30 /\ byte 10 /\ byte 20 /\ byte 31)
  /\ hexOfRGB 10 20 30 = "#0a141e"%string
  /\ (hexOfRGB 10 20 30 = hexOfRGB 10 20 31 -> (10, 20, 30) = (10, 20, 31))
  /\ validImageData 3 1 redRedGreen
  /\ In (nth 0 (sortedColors redRedGreen) (Color.mk EmptyString 0))
        (sortedColors redRedGreen)
  /\ (exists r g b,
        In (r, g, b) (pixels redRedGreen)
        /\ byte r /\ byte g /\ byte b
        /\ Color.hex (nth 0 (sortedColors redRedGreen)
                          (Color.mk EmptyString 0))
           = hexOfRGB r g b)
  /\ validCanvas smallCanvas
  /\ getColorAtPoint pickingState (Some smallCanvas) (Some smallImage)
                     clickAt23 0
     = Returns (recordPick pickingState "#0a141e" 0)
  /\ (exists sx sy r g b a,
        Canvas.pixelAt smallCanvas sx sy = [r; g; b; a]
        /\ byte r /\ byte g /\ byte b
        /\ pickedColor (recordPick pickingState "#0a141e" 0)
           = Some (hexOfRGB r g b)
        /\ customColors (recordPick pickingState "#0a141e" 0)
           = CustomColor.mk (hexOfRGB r g b) 0 :: customColors pickingState).
Proof.
  assert (B : forall c, 0 <= c <= 255 -> byte c) by (intros c H; exact H).
  assert (Hin : In (nth 0 (sortedColors redRedGreen) (Color.mk EmptyString 0))
                   (sortedColors redRedGreen))
    by (vm_compute; left; reflexivity).
  assert (Hrun : getColorAtPoint pickingState (Some smallCanvas)
                   (Some smallImage) clickAt23 0
                 = Returns (recordPick pickingState "#0a141e" 0))
    by (vm_compute; reflexivity).
  destruct hex_of_one_triple as [Hfmt [Hinj [Hext Hsam]]].
  split; [repeat split; lia|].
  split; [exact (proj1 (Hfmt 10 20 30 (B 10 ltac:(lia)) (B 20 ltac:(lia))
                          (B 30 ltac:(lia))))|].
  split; [exact (Hinj 10 20 30 10 20 31 (B 10 ltac:(lia)) (B 20 ltac:(lia))
                   (B 30 ltac:(lia)) (B 10 ltac:(lia)) (B 20 ltac:(lia))
                   (B 31 ltac:(lia)))|].
  split; [exact redRedGreen_valid|].
  split; [exact Hin|].
  split; [exact (Hext 3%nat 1%nat redRedGreen _ redRedGreen_valid Hin)|].
  split; [exact smallCanvas_valid|].
  split; [exact Hrun|].
  exact (Hsam pickingState _ smallCanvas smallImage clickAt23 0
           smallCanvas_valid eq_refl eq_refl Hrun).
Defined.

Lemma sample_at_scale_one_witness :
  isPicking pickingState = true
  /\ Canvas.context2d smallCanvas = true
  /\ scaleX smallImage = 1%float
  /\ scaleY smallImage = 1%float
  /\ displayX smallImage clickAt23 = 2%float
  /\ displayY smallImage clickAt23 = 3%float
  /\ Canvas.pixelAt smallCanvas 2 3 = [10; 20; 30; 255]
  /\ exists st',
       getColorAtPoint pickingState (Some smallCanvas) (Some smallImage)
                       clickAt23 1700000000000
       = Returns st'
       /\ pickedColor st' = Some "#0a141e"%string
       /\ customColors st'
          = CustomColor.mk "#0a141e" 1700000000000
            :: customColors pickingState
       /\ isPicking st' = false
       /\ colors st' = colors pickingState.
Proof.
  repeat (split; [vm_compute; reflexivity|]).
  apply (sample_at_scale_one pickingState smallCanvas smallImage clickAt23
           1700000000000 255); vm_compute; reflexivity.
Defined.

(** C3, as the specification states it, fails where the doubles round: on
    the 2x1 image red, green shown at 98x49 the click at (49,0) should read
    column [floor(49 * 2 / 98) = 1], green; the code computes
    [49 * (2 / 98) = 0.9999999999999999], reads column 0 and records red. *)
Lemma stretched_click_reads_other_pixel :
  ~ readsMappedPixel pickingState redGreenCanvas stretchedImage clickAt490 0.
Proof.
  intros [st' [Hrun Hpicked]].
  assert (E : getColorAtPoint pickingState (Some redGreenCanvas)
                (Some stretchedImage) clickAt490 0
              = Returns (recordPick pickingState "#ff0000" 0))
    by (vm_compute; reflexivity).
  rewrite E in Hrun. injection Hrun as <-.
  vm_compute in Hpicked. discriminate Hpicked.
Qed.

(** C3, amended: the sampler hands [getImageData] the doubles
    [x * (naturalWidth / displayWidth)] and
    [y * (naturalHeight / displayHeight)], the quotient taken first and each
    operation rounded as the language does; [getImageData] takes their
    integer parts, rounding the exact value of the double toward zero
    (which is floor for a non-negative value), and the pixel at these
    coordinates is what the call records.  On a 100x100 buffer shown at
    50x50 the click at (10,10) reads pixel (20,20). *)
Theorem display_to_source_mapping :
  (forall (st : AppState) (cv : Canvas.t) (image : Image.t)
          (e : MouseEvent.t) (now sx sy : Z),
      isPicking st = true ->
      Canvas.context2d cv = true ->
      JS.toLong (displayX image e * scaleX image)%float = Some sx ->
      JS.toLong (displayY image e * scaleY image)%float = Some sy ->
      exists st',
        getColorAtPoint st (Some cv) (Some image) e now = Returns st'
        /\ pickedColor st' = Some (hexOfPixel (Canvas.pixelAt cv sx sy))
        /\ customColors st'
           = CustomColor.mk (hexOfPixel (Canvas.pixelAt cv sx sy)) now
             :: customColors st)
  /\ (forall (x : JS.number) (z : Z),
        JS.toLong x = Some z ->
        exists q, JS.value x = Some q /\ z = JS.trunc q
                  /\ ((0 <= q)%Q -> z = Qfloor q))
  /\ (forall (st : AppState) (cv : Canvas.t) (left top : JS.number)
             (e : MouseEvent.t) (now : Z),
        isPicking st = true ->
        Canvas.context2d cv = true ->
        (MouseEvent.clientX e - left)%float = 10%float ->
        (MouseEvent.clientY e - top)%float = 10%float ->
        exists st',
          getColorAtPoint st (Some cv)
            (Some (shownImage 100 100 left top 50%float 50%float)) e now
          = Returns st'
          /\ pickedColor st' = Some (hexOfPixel (Canvas.pixelAt cv 20 20))
          /\ customColors st'
             = CustomColor.mk (hexOfPixel (Canvas.pixelAt cv 20 20)) now
               :: customColors st).
Proof.
  split; [|split].
  - intros st cv image e now sx sy Hpick Hctx Hx Hy.
    rewrite (getColorAtPoint_reads st cv image e now sx sy Hpick Hctx Hx Hy).
    eexists. split; [reflexivity|]. split; reflexivity.
  - intros x z Hz. destruct (toLong_truncates x z Hz) as [q [Hq [Ht [_ Hf]]]].
    exists q. auto.
  - intros st cv left top e now Hpick Hctx Hx Hy.
    set (image := shownImage 100 100 left top 50%float 50%float).
    assert (Ex : JS.toLong (displayX image e * scaleX image)%float = Some 20).
    { change (displayX image e) with (MouseEvent.clientX e - left)%float.
      rewrite Hx. vm_compute. reflexivity. }
    assert (Ey : JS.toLong (displayY image e * scaleY image)%float = Some 20).
    { change (displayY image e) with (MouseEvent.clientY e - top)%float.
      rewrite Hy. vm_compute. reflexivity. }
    rewrite (getColorAtPoint_reads st cv image e now 20 20 Hpick Hctx Ex Ey).
    eexists. split; [reflexivity|]. split; reflexivity.
Qed.

Lemma display_to_source_mapping_witness :
  isPicking pickingState = true
  /\ Canvas.context2d largeCanvas = true
  /\ (MouseEvent.clientX clickAt1010 - 0)%float = 10%float
  /\ (MouseEvent.clientY clickAt1010 - 0)%float = 10%float
  /\ Canvas.pixelAt largeCanvas 20 20 = [1; 2; 3; 255]
  /\ exists st',
       getColorAtPoint pickingState (Some largeCanvas) (Some halfSizeImage)
                       clickAt1010 0
       = Returns st'
       /\ pickedColor st'
          = Some (hexOfPixel (Canvas.pixelAt largeCanvas 20 20))
       /\ customColors st'
          = CustomColor.mk (hexOfPixel (Canvas.pixelAt largeCanvas 20 20)) 0
            :: customColors pickingState.
Proof.
  repeat (split; [vm_compute; reflexivity|]).
  apply (proj2 (proj2 display_to_source_mapping) pickingState largeCanvas
           0%float 0%float clickAt1010 0);
    vm_compute; reflexivity.
Defined.

(** C4, as the specification states it, fails on the click at
    (displayWidth, displayHeight): on the 2x2 red image the handler neither
    throws nor records the clamped pixel, which is red. *)
Lemma corner_click_neither_clamped_nor_rejected :
  ~ clampsOrRejects pickingState redCanvas redImage cornerClick 0.
Proof.
  unfold clampsOrRejects. vm_compute. intros [H|H]; discriminate H.
Qed.

(** C4, amended: the sampler has no clamping and no rejection of its own.
    Whenever both coordinates convert (they are finite and within 32 bits)
    the call returns and records the canvas pixel at the integer parts of
    the coordinates, and when these lie outside the buffer the canvas gives
    transparent black and ["#000000"] is recorded: no sample outside the
    buffer is read.  On a 2x2 image shown at 2x2 the click exactly at
    (displayWidth, displayHeight) records ["#000000"].  When a coordinate
    does not convert the call throws; this is the case when the display
    width or height is 0, the coordinate being then not finite. *)
Theorem sampler_boundary :
  (forall (st : AppState) (cv : Canvas.t) (image : Image.t)
          (e : MouseEvent.t) (now sx sy : Z),
      isPicking st = true ->
      Canvas.context2d cv = true ->
      JS.toLong (displayX image e * scaleX image)%float = Some sx ->
      JS.toLong (displayY image e * scaleY image)%float = Some sy ->
      exists st',
        getColorAtPoint st (Some cv) (Some image) e now = Returns st'
        /\ pickedColor st' = Some (hexOfPixel (Canvas.pixelAt cv sx sy))
        /\ (~ inside cv sx sy -> pickedColor st' = Some "#000000"%string))
  /\ (forall (st : AppState) (cv : Canvas.t) (image : Image.t)
             (e : MouseEvent.t) (now : Z),
        isPicking st = true ->
        Canvas.context2d cv = true ->
        JS.toLong (displayX image e * scaleX image)%float = None
        \/ JS.toLong (displayY image e * scaleY image)%float = None ->
        getColorAtPoint st (Some cv) (Some image) e now = Throws)
  /\ (forall (st : AppState) (bitmap : list Z) (now : Z),
        isPicking st = true ->
        exists st',
          getColorAtPoint st (Some (Canvas.mk 2 2 bitmap true))
                          (Some redImage) cornerClick now
          = Returns st'
          /\ pickedColor st' = Some "#000000"%string)
  /\ (forall (st : AppState) (cv : Canvas.t) (image : Image.t)
             (e : MouseEvent.t) (now : Z),
        isPicking st = true ->
        Canvas.context2d cv = true ->
        DOMRect.width (Image.getBoundingClientRect image) = 0%float
        \/ DOMRect.height (Image.getBoundingClientRect image) = 0%float ->
        getColorAtPoint st (Some cv) (Some image) e now = Throws).
Proof.
  split; [|split; [|split]].
  - intros st cv image e now sx sy Hpick Hctx Hx Hy.
    rewrite (getColorAtPoint_reads st cv image e now sx sy Hpick Hctx Hx Hy).
    eexists. split; [reflexivity|]. split; [reflexivity|].
    intro Hout. cbn [recordPick pickedColor].
    now rewrite (pixelAt_outside cv sx sy Hout).
  - intros st cv image e now. apply getColorAtPoint_throws.
  - intros st bitmap now Hpick.
    rewrite (getColorAtPoint_reads st (Canvas.mk 2 2 bitmap true) redImage
               cornerClick now 2 2 Hpick eq_refl)
      by (vm_compute; reflexivity).
    eexists. split; reflexivity.
  - intros st cv image e now Hpick Hctx Hzero.
    apply getColorAtPoint_throws; try assumption.
    destruct Hzero as [Hz|Hz]; [left|right];
      apply toLong_nonfinite, value_mul_nonfinite;
      unfold scaleX, scaleY; rewrite Hz; apply value_div_zero.
Qed.

Lemma sampler_boundary_witness :
  (exists st',
      getColorAtPoint pickingState (Some redCanvas) (Some redImage)
                      (MouseEvent.mk 1%float 0%float) 0
      = Returns st'
      /\ pickedColor st' = Some "#ff0000"%string)
  /\ (exists st',
        getColorAtPoint pickingState (Some redCanvas) (Some redImage)
                        cornerClick 0
        = Returns st'
        /\ pickedColor st' = Some "#000000"%string)
  /\ getColorAtPoint pickingState (Some redCanvas) (Some redImage)
                     (MouseEvent.mk 3000000000%float 0%float) 0
     = Throws
  /\ getColorAtPoint pickingState (Some redCanvas) (Some collapsedImage)
                     cornerClick 0
     = Throws.
Proof.
  destruct sampler_boundary as [Hreads [Hthrows [Hcorner Hzero]]].
  split; [|split; [|split]].
  - destruct (Hreads pickingState redCanvas redImage
                (MouseEvent.mk 1%float 0%float) 0 1 0 eq_refl eq_refl)
      as [st' [Hrun [Hpicked _]]]; try (vm_compute; reflexivity).
    exists st'. split; [exact Hrun|]. rewrite Hpicked.
    vm_compute. reflexivity.
  - exact (Hcorner pickingState (Canvas.bitmap redCanvas) 0 eq_refl).
  - apply (Hthrows pickingState redCanvas redImage
             (MouseEvent.mk 3000000000%float 0%float) 0 eq_refl eq_refl).
    left. vm_compute. reflexivity.
  - apply (Hzero pickingState redCanvas collapsedImage cornerClick 0
             eq_refl eq_refl).
    left. reflexivity.
Defined.

End Sampler.

(** ** More on the extraction *)

Section ExtractionFacts.

Lemma get_absent (m : StringMap.t) (k : string) :
  ~ In k (StringMap.keys m) -> StringMap.get m k = None.
Proof.
  induction m as [|[k0 v0] m IH]; intro H; [reflexivity|].
  cbn [StringMap.get]. cbn [StringMap.keys map fst] in H.
  destruct (String.eqb_spec k0 k) as [->|Hne].
  - exfalso. apply H. now left.
  - apply IH. intro Hin. apply H. now right.
Qed.

Lemma get_present (m : StringMap.t) (k : string) :
  In k (StringMap.keys m) -> exists v, StringMap.get m k = Some v.
Proof.
  induction m as [|[k0 v0] m IH]; intro H; [contradiction|].
  cbn [StringMap.get]. cbn [StringMap.keys map fst] in H.
  destruct (String.eqb_spec k0 k) as [->|Hne].
  - now exists v0.
  - destruct H as [E|H]; [congruence|]. now apply IH.
Qed.

(** X1: when the loop is over, looking a key up in the map gives the number
    of pixels of that colour, and nothing for a colour the image does not
    have. *)
Theorem countColors_lookup (imageData : list Z) (k : string) :
  StringMap.get (countColors imageData []) k
  = match occurrences k imageData with
    | O => None
    | S n => Some (Z.of_nat (S n))
    end.
Proof.
  rewrite countColors_fold. unfold occurrences.
  pose proof (get_fold (pixelKeys imageData) [] k) as Hg.
  cbn [StringMap.get JS.orZero] in Hg.
  destruct (in_dec string_dec k (pixelKeys imageData)) as [Hin|Hnot].
  - assert (Hkey : In k (StringMap.keys
                           (fold_left countKey (pixelKeys imageData) [])))
      by (apply keys_fold_In; now right).
    destruct (get_present _ _ Hkey) as [v Hv]. rewrite Hv in Hg |- *.
    cbn [JS.orZero] in Hg. apply (count_occ_In string_dec) in Hin.
    destruct (count_occ string_dec (pixelKeys imageData) k) as [|n]; [lia|].
    now rewrite Hg.
  - assert (Hkey : ~ In k (StringMap.keys
                             (fold_left countKey (pixelKeys imageData) []))).
    { intro H. apply keys_fold_In in H. destruct H as [[]|H]. contradiction. }
    rewrite (get_absent _ _ Hkey).
    apply (count_occ_not_In string_dec) in Hnot. now rewrite Hnot.
Qed.

Lemma occurrences_bounds (w h : nat) (imageData : list Z) (c : Color.t) :
  validImageData w h imageData ->
  In c (histogram imageData) ->
  (1 <= occurrences (Color.hex c) imageData <= w * h)%nat.
Proof.
  intros [Hlen _] Hc. unfold occurrences. split.
  - assert (Hk : In (Color.hex c) (pixelKeys imageData)).
    { unfold histogram, StringMap.entries in Hc.
      apply in_map_iff in Hc. destruct Hc as [[k v] [<- Hin]].
      now apply countColors_entry in Hin. }
    apply (count_occ_In string_dec) in Hk. lia.
  - etransitivity; [apply count_occ_bound|].
    unfold pixelKeys. rewrite length_map.
    rewrite (pixels_length imageData (w * h)); [lia|]. rewrite Hlen. lia.
Qed.

Lemma insertByDouble_perm {A : Type} (cmp : A -> A -> JS.number) (x : A)
    (l : list A) :
  Permutation (x :: l) (insertByDouble cmp x l).
Proof.
  induction l as [|y l IH]; cbn [insertByDouble]; [reflexivity|].
  destruct (PrimFloat.ltb 0 (cmp x y)); [|reflexivity].
  etransitivity; [apply perm_swap|]. now apply perm_skip.
Qed.

Lemma sortDouble_perm {A : Type} (cmp : A -> A -> JS.number) (l : list A) :
  Permutation l (sortDouble cmp l).
Proof.
  induction l as [|x l IH]; [reflexivity|]. cbn [sortDouble fold_right].
  etransitivity; [|apply insertByDouble_perm]. now apply perm_skip.
Qed.

(** X2: every returned percentage is the double
    [(count / totalPixels) * 100] of lines 50 and 65, where [count] is the
    number of pixels of the colour, at least one and at most all of them. *)
Theorem returned_percentage_of_count (w h : nat) (imageData : list Z)
    (hex : string) (p : JS.number) :
  validImageData w h imageData ->
  In (hex, p) (rankedDoubles imageData) ->
  (1 <= occurrences hex imageData <= w * h)%nat
  /\ p = percentageDouble (totalPixelsDouble imageData)
                          (Z.of_nat (occurrences hex imageData)).
Proof.
  intros Hvalid Hin. unfold rankedDoubles in Hin.
  apply firstn_incl in Hin.
  apply (Permutation_in _ (Permutation_sym (sortDouble_perm _ _))) in Hin.
  apply in_map_iff in Hin. destruct Hin as [[k v] [E Hentry]].
  injection E as -> <-.
  unfold StringMap.entries in Hentry.
  pose proof (countColors_entry imageData hex v Hentry) as [Hv _].
  split.
  - apply (occurrences_bounds w h imageData
             (toColor (totalPixels imageData) (hex, v)) Hvalid).
    unfold histogram, StringMap.entries. now apply in_map.
  - now rewrite Hv.
Qed.

Lemma returned_percentage_of_count_witness :
  validImageData 3 1 redRedGreen
  /\ In ("#00ff00"%string, 0x1.0aaaaaaaaaaaap+5%float)
        (rankedDoubles redRedGreen)
  /\ (1 <= occurrences "#00ff00" redRedGreen <= 3 * 1)%nat
  /\ 0x1.0aaaaaaaaaaaap+5%float
     = percentageDouble (totalPixelsDouble redRedGreen)
                        (Z.of_nat (occurrences "#00ff00" redRedGreen)).
Proof.
  assert (Hin : In ("#00ff00"%string, 0x1.0aaaaaaaaaaaap+5%float)
                   (rankedDoubles redRedGreen))
    by (vm_compute; right; left; reflexivity).
  split; [exact redRedGreen_valid|]. split; [exact Hin|].
  exact (returned_percentage_of_count 3 1 redRedGreen _ _
           redRedGreen_valid Hin).
Defined.

Lemma NoDup_firstn {A : Type} (n : nat) (l : list A) :
  NoDup l -> NoDup (firstn n l).
Proof.
  intro H. rewrite <- (firstn_skipn n l) in H.
  now apply NoDup_app_remove_r in H.
Qed.

Lemma sorted_hex_NoDup (imageData : list Z) :
  NoDup (map Color.hex (sort byPercentageDesc (histogram imageData))).
Proof.
  apply (Permutation_NoDup
           (l := StringMap.keys (countColors imageData []))).
  - rewrite <- hex_histogram. apply Permutation_map.
    apply Permutation_sym, sort_perm.
  - rewrite countColors_fold. apply (keys_fold_NoDup _ []). constructor.
Qed.

(** X3: no colour is listed twice: the hex strings of the result, which
    line 329 uses as keys of the swatches, are pairwise different. *)
Theorem sortedColors_hex_distinct (imageData : list Z) :
  NoDup (map Color.hex (sortedColors imageData)).
Proof.
  unfold sortedColors. rewrite <- firstn_map.
  apply NoDup_firstn, sorted_hex_NoDup.
Qed.






Lemma NoDup_map_on {A B : Type} (f : A -> B) (l : list A) :
  (forall x y, In x l -> In y l -> f x = f y -> x = y) ->
  NoDup l -> NoDup (map f l).
Proof.
  intros Hinj Hnd. induction Hnd as [|x l Hx Hnd IH]; cbn [map].
  - constructor.
  - constructor.
    + intro Hin. apply in_map_iff in Hin. destruct Hin as [y [E Hy]].
      assert (y = x) by (apply Hinj; [now right | now left | exact E]).
      subst y. contradiction.
    + apply IH. intros a b Ha Hb. apply Hinj; now right.
Qed.

Lemma keyOf_inj_on_pixels (imageData : list Z) (p q : Z * Z * Z) :
  Forall byte imageData ->
  In p (pixels imageData) -> In q (pixels imageData) ->
  keyOf p = keyOf q -> p = q.
Proof.
  intros Hbytes Hp Hq E.
  pose proof (pixels_bytes imageData Hbytes) as Hall.
  rewrite Forall_forall in Hall.
  pose proof (Hall p Hp) as Bp. pose proof (Hall q Hq) as Bq.
  destruct p as [[r g] b]. destruct q as [[r' g'] b'].
  destruct Bp as [? [? ?]]. destruct Bq as [? [? ?]].
  cbn [keyOf] in E.
  destruct (hexOfRGB_inj r g b r' g' b') as [-> [-> ->]]; auto.
Qed.

Lemma histogram_length_exact (w h : nat) (imageData : list Z) :
  validImageData w h imageData ->
  List.length (histogram imageData)
  = List.length (distinctColors imageData).
Proof.
  intros [_ Hbytes]. unfold histogram, StringMap.entries, distinctColors.
  rewrite length_map, <- (length_map fst).
  rewrite <- (length_map keyOf (nodup rgb_eq_dec (pixels imageData))).
  apply Permutation_length, NoDup_Permutation.
  - rewrite countColors_fold. apply (keys_fold_NoDup _ []). constructor.
  - apply NoDup_map_on; [|apply NoDup_nodup].
    intros x y Hx Hy. apply nodup_In in Hx, Hy.
    now apply (keyOf_inj_on_pixels imageData).
  - intro k. fold (StringMap.keys (countColors imageData [])).
    rewrite countColors_fold, keys_fold_In. unfold pixelKeys.
    rewrite !in_map_iff. split.
    + intros [[]|[p [E Hp]]]. exists p. split; [exact E|].
      now apply nodup_In.
    + intros [p [E Hp]]. right. exists p. split; [exact E|].
      now apply nodup_In in Hp.
Qed.

(** X6: the result has exactly as many entries as the image has distinct
    colours, up to six. *)
Theorem sortedColors_length (w h : nat) (imageData : list Z) :
  validImageData w h imageData ->
  List.length (sortedColors imageData)
  = Nat.min 6 (List.length (distinctColors imageData)).
Proof.
  intro Hvalid. unfold sortedColors.
  rewrite length_firstn, (Permutation_length (sort_perm _ _)).
  now rewrite (histogram_length_exact w h).
Qed.

Lemma sevenColours_valid : validImageData 8 1 sevenColours.
Proof.
  split; [reflexivity|]. apply bytes_checked. reflexivity.
Defined.

Lemma sortedColors_length_witness :
  validImageData 8 1 sevenColours
  /\ List.length (distinctColors sevenColours) = 7%nat
  /\ List.length (sortedColors sevenColours)
     = Nat.min 6 (List.length (distinctColors sevenColours)).
Proof.
  split; [exact sevenColours_valid|]. split; [reflexivity|].
  exact (sortedColors_length 8 1 sevenColours sevenColours_valid).
Defined.

Lemma countColors_uniform (r g b a : Z) (n : nat) (c : Z) :
  countColors (uniformImage r g b a n) [(hexOfRGB r g b, c)]
  = [(hexOfRGB r g b, c + Z.of_nat n)].
Proof.
  revert c. induction n as [|n IH]; intro c; cbn [uniformImage countColors].
  - now rewrite Z.add_0_r.
  - unfold countPixel. cbn [StringMap.get StringMap.set].
    rewrite String.eqb_refl. cbn [JS.orZero]. rewrite IH.
    do 2 f_equal. lia.
Qed.

Lemma uniformImage_length (r g b a : Z) (n : nat) :
  List.length (uniformImage r g b a n) = (4 * n)%nat.
Proof.
  induction n as [|n IH]; cbn [uniformImage List.length]; lia.
Qed.

(** X7: an image of one colour, whatever its size, gives that colour alone,
    at 100 percent. *)
Theorem uniform_image_one_entry (r g b a : Z) (n : nat) :
  (0 < n)%nat ->
  exists p,
    sortedColors (uniformImage r g b a n) = [Color.mk (hexOfRGB r g b) p]
    /\ (p == 100)%Q.
Proof.
  intro Hn. destruct n as [|n]; [lia|].
  exists (inject_Z (1 + Z.of_nat n)
          / totalPixels (uniformImage r g b a (S n)) * 100)%Q.
  split.
  - unfold sortedColors, histogram, StringMap.entries.
    cbn [uniformImage countColors]. unfold countPixel at 1.
    cbn [StringMap.get StringMap.set JS.orZero]. rewrite Z.add_0_l.
    rewrite countColors_uniform. reflexivity.
  - unfold totalPixels. rewrite uniformImage_length.
    replace (Z.of_nat (4 * S n)) with (4 * (1 + Z.of_nat n)) by lia.
    rewrite inject_Z_mult. field.
    assert (0 < inject_Z (1 + Z.of_nat n))%Q
      by (change 0%Q with (inject_Z 0); rewrite <- Zlt_Qlt; lia).
    intro E. rewrite E in *. lra.
Qed.

Lemma uniform_image_one_entry_witness :
  (0 < 5)%nat
  /\ exists p,
       sortedColors (uniformImage 10 20 30 255 5)
       = [Color.mk "#0a141e" p]
       /\ (p == 100)%Q.
Proof.
  split; [lia|].
  apply (uniform_image_one_entry 10 20 30 255 5). lia.
Defined.

Lemma pixelsOf_app (imageData : list Z) (l1 l2 : list Color.t) :
  pixelsOf imageData (l1 ++ l2)
  = (pixelsOf imageData l1 + pixelsOf imageData l2)%nat.
Proof.
  induction l1 as [|c l1 IH]; [reflexivity|].
  cbn [app pixelsOf fold_right]. fold (pixelsOf imageData (l1 ++ l2)).
  fold (pixelsOf imageData l1). rewrite IH. lia.
Qed.

Lemma pixelsOf_perm (imageData : list Z) (l l' : list Color.t) :
  Permutation l l' -> pixelsOf imageData l = pixelsOf imageData l'.
Proof.
  induction 1 as [| x l l' _ IH | x y l | l l' l'' _ IH1 _ IH2];
    cbn [pixelsOf fold_right].
  - reflexivity.
  - fold (pixelsOf imageData l). fold (pixelsOf imageData l').
    now rewrite IH.
  - lia.
  - now rewrite IH1.
Qed.

Lemma pixelsOf_entries (imageData : list Z) (total : Q) (m : StringMap.t) :
  (forall k v, In (k, v) m -> v = Z.of_nat (occurrences k imageData)) ->
  Z.of_nat (pixelsOf imageData (map (toColor total) m)) = sumCounts m.
Proof.
  induction m as [|[k v] m IH]; intro Hm; [reflexivity|].
  cbn [map toColor pixelsOf fold_right sumCounts snd Color.hex].
  fold (pixelsOf imageData (map (toColor total) m)). fold (sumCounts m).
  rewrite Nat2Z.inj_add, IH.
  - rewrite (Hm k v) by (left; reflexivity). reflexivity.
  - intros k' v' Hin. apply Hm. now right.
Qed.

(** Every pixel has one of the colours of the histogram. *)
Lemma pixelsOf_histogram (w h : nat) (imageData : list Z) :
  validImageData w h imageData ->
  pixelsOf imageData (histogram imageData) = (w * h)%nat.
Proof.
  intros [Hlen _]. apply Nat2Z.inj.
  unfold histogram, StringMap.entries.
  rewrite pixelsOf_entries.
  - rewrite countColors_fold, sumCounts_fold.
    unfold pixelKeys. rewrite length_map.
    rewrite (pixels_length imageData (w * h)) by (rewrite Hlen; lia).
    cbn [sumCounts fold_right]. lia.
  - intros k v Hin. now apply countColors_entry in Hin.
Qed.

(** X8: the colours shown account for every pixel of the image exactly
    when the image has at most six distinct colours; with more colours some
    pixel has none of the colours shown. *)
Theorem shown_colours_complete (w h : nat) (imageData : list Z) :
  validImageData w h imageData ->
  (pixelsOf imageData (sortedColors imageData) <= w * h)%nat
  /\ (pixelsOf imageData (sortedColors imageData) = (w * h)%nat
      <-> (List.length (distinctColors imageData) <= 6)%nat)
  /\ ((6 < List.length (distinctColors imageData))%nat ->
      (pixelsOf imageData (sortedColors imageData) < w * h)%nat).
Proof.
  intro Hvalid.
  pose proof (pixelsOf_histogram w h imageData Hvalid) as Hfull.
  pose proof (histogram_length_exact w h imageData Hvalid) as Hlen.
  set (ranked := sort byPercentageDesc (histogram imageData)).
  assert (Hsum : (pixelsOf imageData (firstn 6 ranked)
                  + pixelsOf imageData (skipn 6 ranked) = w * h)%nat).
  { rewrite <- pixelsOf_app, firstn_skipn. unfold ranked.
    now rewrite (pixelsOf_perm imageData _ _
                    (sort_perm byPercentageDesc (histogram imageData))). }
  assert (Hmany : (6 < List.length (distinctColors imageData))%nat ->
                  (pixelsOf imageData (sortedColors imageData) < w * h)%nat).
  { intro Hgt. unfold sortedColors. fold ranked.
    assert (Hlast : (6 < List.length ranked)%nat).
    { unfold ranked.
      rewrite (Permutation_length (sort_perm byPercentageDesc _)). lia. }
    destruct (skipn 6 ranked) as [|c rest] eqn:Hskip.
    - apply (f_equal (@List.length _)) in Hskip.
      rewrite length_skipn in Hskip. cbn [List.length] in Hskip. lia.
    - assert (Hin : In c (histogram imageData)).
      { apply (Permutation_in c (sort_perm byPercentageDesc _)).
        fold ranked. rewrite <- (firstn_skipn 6 ranked), Hskip.
        apply in_or_app. right. now left. }
      pose proof (occurrences_bounds w h imageData c Hvalid Hin) as [H1 _].
      cbn [pixelsOf fold_right] in Hsum. lia. }
  split; [|split; [|exact Hmany]].
  - unfold sortedColors. fold ranked. lia.
  - split.
    + intro E. destruct (Nat.le_gt_cases
                           (List.length (distinctColors imageData)) 6)
        as [Hle|Hgt]; [exact Hle|].
      specialize (Hmany Hgt). lia.
    + intro Hle. unfold sortedColors. fold ranked.
      rewrite firstn_all2.
      * unfold ranked.
        now rewrite (pixelsOf_perm imageData _ _
                    (sort_perm byPercentageDesc (histogram imageData))).
      * unfold ranked.
        rewrite (Permutation_length (sort_perm byPercentageDesc _)). lia.
Qed.

Lemma shown_colours_complete_witness :
  validImageData 8 1 sevenColours
  /\ (6 < List.length (distinctColors sevenColours))%nat
  /\ pixelsOf sevenColours (sortedColors sevenColours) = 7%nat
  /\ (pixelsOf sevenColours (sortedColors sevenColours) < 8 * 1)%nat.
Proof.
  assert (Hgt : (6 < List.length (distinctColors sevenColours))%nat)
    by (vm_compute; lia).
  split; [exact sevenColours_valid|]. split; [exact Hgt|].
  split; [reflexivity|].
  exact (proj2 (proj2 (shown_colours_complete 8 1 sevenColours
                         sevenColours_valid)) Hgt).
Defined.

End ExtractionFacts.

(** ** More on the sampler *)

Section SamplingFacts.

Lemma pixels_nth (imageData : list Z) :
  forall (i : nat) (r g b a : Z),
    firstn 4 (skipn (4 * i) imageData) = [r; g; b; a] ->
    nth_error (pixels imageData) i = Some (r, g, b).
Proof.
  induction imageData as [d Hd | r0 g0 b0 a0 rest IH] using chunk4_ind;
    intros i r g b a E.
  - exfalso.
    apply (f_equal (@List.length Z)) in E.
    rewrite length_firstn, length_skipn in E. cbn [List.length] in E. lia.
  - destruct i as [|i].
    + cbn in E. injection E as -> -> -> ->. reflexivity.
    + replace (4 * S i)%nat with (4 + 4 * i)%nat in E by lia.
      cbn [Nat.add skipn] in E. cbn [pixels nth_error].
      now apply (IH i r g b a).
Qed.

(** The pixel the canvas hands back: inside the bitmap it is one of the
    pixels the extractor counts, outside it is transparent black. *)
Lemma pixel_counted_or_black (cv : Canvas.t) (sx sy : Z) :
  validCanvas cv ->
  (inside cv sx sy ->
   exists r g b,
     In (r, g, b) (pixels (Canvas.bitmap cv))
     /\ hexOfPixel (Canvas.pixelAt cv sx sy) = hexOfRGB r g b)
  /\ (~ inside cv sx sy ->
      hexOfPixel (Canvas.pixelAt cv sx sy) = "#000000"%string).
Proof.
  intros [_ [_ [Hlen _]]]. split.
  - intros [[Hx0 Hx1] [Hy0 Hy1]]. unfold Canvas.pixelAt.
    destruct (Z.leb_spec 0 sx); [|lia].
    destruct (Z.ltb_spec sx (Canvas.width cv)); [|lia].
    destruct (Z.leb_spec 0 sy); [|lia].
    destruct (Z.ltb_spec sy (Canvas.height cv)); [|lia].
    cbn [andb]. set (i := sy * Canvas.width cv + sx).
    assert (Hi : 0 <= i /\ i + 1 <= Canvas.height cv * Canvas.width cv)
      by (unfold i; nia).
    destruct (firstn4_skipn (Canvas.bitmap cv) (4 * Z.to_nat i))
      as [r [g [b [a [E _]]]]]; [nia|].
    replace (Z.to_nat (4 * i)) with (4 * Z.to_nat i)%nat by lia.
    rewrite E. exists r, g, b. split; [|reflexivity].
    apply (nth_error_In _ (Z.to_nat i)). exact (pixels_nth _ _ r g b a E).
  - intro Hout. now rewrite (pixelAt_outside cv sx sy Hout).
Qed.

Lemma histogram_shown (imageData : list Z) (c : Color.t) :
  In c (histogram imageData) ->
  (List.length (distinctColors imageData) <= 6)%nat ->
  In c (sortedColors imageData).
Proof.
  intros Hc Hfew. unfold sortedColors. rewrite firstn_all2.
  - now apply (Permutation_in c (Permutation_sym (sort_perm _ _))).
  - rewrite (Permutation_length (sort_perm _ _)).
    pose proof (histogram_length imageData). lia.
Qed.

(** X10: the sampler and the extractor agree.  Whenever both coordinates
    convert, the call returns and records one colour: for coordinates
    inside the canvas a colour of the histogram of its bitmap (one of the
    dominant colours shown, when the image has at most six distinct
    colours), and ["#000000"] for coordinates outside it. *)
Theorem picked_colour_is_counted (st : AppState) (cv : Canvas.t)
    (image : Image.t) (e : MouseEvent.t) (now sx sy : Z) :
  validCanvas cv ->
  isPicking st = true ->
  Canvas.context2d cv = true ->
  JS.toLong (displayX image e * scaleX image)%float = Some sx ->
  JS.toLong (displayY image e * scaleY image)%float = Some sy ->
  exists st' hex,
    getColorAtPoint st (Some cv) (Some image) e now = Returns st'
    /\ pickedColor st' = Some hex
    /\ customColors st' = CustomColor.mk hex now :: customColors st
    /\ (inside cv sx sy ->
        exists c,
          In c (histogram (Canvas.bitmap cv))
          /\ Color.hex c = hex
          /\ ((List.length (distinctColors (Canvas.bitmap cv)) <= 6)%nat ->
              In c (colors (extractColors st (Canvas.bitmap cv)))))
    /\ (~ inside cv sx sy -> hex = "#000000"%string).
Proof.
  intros Hcv Hpick Hctx Hx Hy.
  rewrite (getColorAtPoint_reads st cv image e now sx sy Hpick Hctx Hx Hy).
  destruct (pixel_counted_or_black cv sx sy Hcv) as [Hin Hout].
  exists (recordPick st (hexOfPixel (Canvas.pixelAt cv sx sy)) now),
         (hexOfPixel (Canvas.pixelAt cv sx sy)).
  split; [reflexivity|]. split; [reflexivity|]. split; [reflexivity|].
  split; [|exact Hout].
  intro Hi. destruct (Hin Hi) as [r [g [b [Hp ->]]]].
  destruct (histogram_has_pixel _ r g b Hp) as [c [Hc Hhex]].
  exists c. split; [exact Hc|]. split; [exact Hhex|].
  intro Hfew. cbn [extractColors colors]. now apply histogram_shown.
Qed.

Lemma picked_colour_is_counted_witness :
  validCanvas smallCanvas
  /\ JS.toLong (displayX smallImage clickAt23 * scaleX smallImage)%float
     = Some 2
  /\ JS.toLong (displayY smallImage clickAt23 * scaleY smallImage)%float
     = Some 3
  /\ inside smallCanvas 2 3
  /\ exists st' hex,
       getColorAtPoint pickingState (Some smallCanvas) (Some smallImage)
                       clickAt23 0
       = Returns st'
       /\ pickedColor st' = Some hex
       /\ exists c,
            In c (histogram (Canvas.bitmap smallCanvas))
            /\ Color.hex c = hex.
Proof.
  assert (Hx : JS.toLong (displayX smallImage clickAt23
                          * scaleX smallImage)%float = Some 2)
    by (vm_compute; reflexivity).
  assert (Hy : JS.toLong (displayY smallImage clickAt23
                          * scaleY smallImage)%float = Some 3)
    by (vm_compute; reflexivity).
  assert (Hin : inside smallCanvas 2 3) by (vm_compute; intuition discriminate).
  split; [exact smallCanvas_valid|]. split; [exact Hx|]. split; [exact Hy|].
  split; [exact Hin|].
  destruct (picked_colour_is_counted pickingState smallCanvas smallImage
              clickAt23 0 2 3 smallCanvas_valid eq_refl eq_refl Hx Hy)
    as [st' [hex [Hrun [Hpicked [_ [Hinside _]]]]]].
  exists st', hex. split; [exact Hrun|]. split; [exact Hpicked|].
  destruct (Hinside Hin) as [c [Hc [Hhex _]]].
  exists c. split; assumption.
Defined.

End SamplingFacts.

(** ** The application as a whole *)

Section Application.

(** X11: one press of "Pick Color" gives one pick.  When the handler
    returns with the canvas and the image in place, picking is off, and a
    further click, wherever it lands, changes nothing. *)
Theorem one_pick_per_press (st st' : AppState) (cv : Canvas.t)
    (image : Image.t) (e : MouseEvent.t) (now : Z) :
  Canvas.context2d cv = true ->
  getColorAtPoint st (Some cv) (Some image) e now = Returns st' ->
  isPicking st' = false
  /\ forall canvasRef imageRef e' now',
       getColorAtPoint st' canvasRef imageRef e' now' = Returns st'.
Proof.
  intros Hctx Hrun.
  assert (Hoff : isPicking st' = false).
  { unfold getColorAtPoint in Hrun. rewrite Hctx in Hrun.
    destruct (isPicking st) eqn:Hpick; cbn [negb] in Hrun.
    - destruct (sourcePoint image e) as [sx sy].
      destruct (Canvas.getImageData cv sx sy); [|discriminate].
      injection Hrun as <-. reflexivity.
    - injection Hrun as <-. exact Hpick. }
  split; [exact Hoff|].
  intros canvasRef imageRef e' now'. unfold getColorAtPoint.
  now rewrite Hoff.
Qed.

Lemma one_pick_per_press_witness :
  Canvas.context2d smallCanvas = true
  /\ getColorAtPoint pickingState (Some smallCanvas) (Some smallImage)
                     clickAt23 0
     = Returns (recordPick pickingState "#0a141e" 0)
  /\ getColorAtPoint (recordPick pickingState "#0a141e" 0)
                     (Some smallCanvas) (Some smallImage) cornerClick 1
     = Returns (recordPick pickingState "#0a141e" 0).
Proof.
  assert (Hrun : getColorAtPoint pickingState (Some smallCanvas)
                   (Some smallImage) clickAt23 0
                 = Returns (recordPick pickingState "#0a141e" 0))
    by (vm_compute; reflexivity).
  split; [reflexivity|]. split; [exact Hrun|].
  exact (proj2 (one_pick_per_press pickingState _ smallCanvas smallImage
                  clickAt23 0 eq_refl Hrun)
           (Some smallCanvas) (Some smallImage) cornerClick 1).
Defined.

Lemma extractColorsOnCanvas_frame (st st' : AppState)
    (canvas canvas' : option Canvas.t) (image : LoadedImage.t) :
  extractColorsOnCanvas st canvas image = (Returns st', canvas') ->
  customColors st' = customColors st /\ isPicking st' = isPicking st
  /\ pickedColor st' = pickedColor st.
Proof.
  unfold extractColorsOnCanvas. destruct canvas as [cv|].
  - destruct (negb (Canvas.context2d cv)).
    + intro E. injection E as <- _. auto.
    + destruct ((Canvas.width (drawOn cv image) =? 0)
                || (Canvas.height (drawOn cv image) =? 0));
        [discriminate|].
      intro E. injection E as <- _. auto.
  - intro E. injection E as <- _. auto.
Qed.

Lemma step_history (w : World) (ev : event) :
  exists newer,
    customColors (appState (step w ev))
    = newer ++ customColors (appState w)
    /\ (List.length newer + armed (appState (step w ev))
        <= armed (appState w) + (if isPickPressed ev then 1 else 0))%nat.
Proof.
  destruct ev as [image | | imageRef e now]; cbn [step isPickPressed].
  - destruct (extractColorsOnCanvas (appState w) (canvasElement w) image)
      as [[st|] cv] eqn:E; cbn [appState].
    + destruct (extractColorsOnCanvas_frame _ _ _ _ _ E) as [Hc [Hp _]].
      exists []. unfold armed. rewrite Hc, Hp. cbn [app List.length].
      split; [reflexivity|lia].
    + exists []. cbn [app List.length]. split; [reflexivity|lia].
  - exists []. split; [reflexivity|].
    unfold armed, togglePicking. simpl.
    destruct (isPicking (appState w)); simpl; lia.
  - unfold getColorAtPoint, armed.
    destruct (isPicking (appState w)) eqn:Hpick; cbn [negb].
    + destruct (canvasElement w) as [cv|];
        [|exists []; cbn [appState app List.length]; rewrite Hpick;
          split; [reflexivity|lia]].
      destruct imageRef as [image|];
        [|exists []; cbn [appState app List.length]; rewrite Hpick;
          split; [reflexivity|lia]].
      destruct (negb (Canvas.context2d cv));
        [exists []; cbn [appState app List.length]; rewrite Hpick;
         split; [reflexivity|lia]|].
      destruct (sourcePoint image e) as [sx sy].
      destruct (Canvas.getImageData cv sx sy) as [pixel|].
      * exists [CustomColor.mk (hexOfPixel pixel) now].
        cbn [appState recordPick customColors isPicking app List.length].
        split; [reflexivity|lia].
      * exists []. cbn [app List.length]. rewrite Hpick.
        split; [reflexivity|lia].
    + exists []. cbn [appState app List.length]. rewrite Hpick.
      split; [reflexivity|lia].
Qed.

(** X12: the history of picked colours only grows at the front, and by no
    more than the button was pressed: after any sequence of image loads,
    presses and clicks, the earlier history is the tail of the list, and
    the number of new entries is at most the number of presses (plus one
    when picking was on to begin with). *)
Theorem picks_bounded_by_presses (evs : list event) :
  forall w : World,
  exists newer,
    customColors (appState (run w evs))
    = newer ++ customColors (appState w)
    /\ (List.length newer + armed (appState (run w evs))
        <= armed (appState w)
           + List.length (filter isPickPressed evs))%nat.
Proof.
  unfold run. induction evs as [|ev evs IH]; intro w; cbn [fold_left filter].
  - exists []. cbn [app List.length]. split; [reflexivity|lia].
  - destruct (IH (step w ev)) as [n2 [E2 L2]].
    destruct (step_history w ev) as [n1 [E1 L1]].
    exists (n2 ++ n1). rewrite E2, E1, app_assoc. split; [reflexivity|].
    rewrite length_app.
    destruct (isPickPressed ev); cbn [List.length]; lia.
Qed.

Lemma step_without_load (w : World) (ev : event) :
  isImageLoaded ev = false ->
  colors (appState (step w ev)) = colors (appState w)
  /\ canvasElement (step w ev) = canvasElement w.
Proof.
  destruct ev as [image | | imageRef e now]; cbn [isImageLoaded step];
    intro H; [discriminate| |].
  - split; reflexivity.
  - unfold getColorAtPoint.
    destruct (negb (isPicking (appState w))); [split; reflexivity|].
    destruct (canvasElement w) as [cv|] eqn:Ecv; [|split; reflexivity].
    destruct imageRef as [image|]; [|split; reflexivity].
    destruct (negb (Canvas.context2d cv)); [split; reflexivity|].
    destruct (sourcePoint image e) as [sx sy].
    destruct (Canvas.getImageData cv sx sy);
      split; first [reflexivity | exact Ecv].
Qed.

Lemma run_without_load (evs : list event) :
  forall w : World,
    existsb isImageLoaded evs = false ->
    colors (appState (run w evs)) = colors (appState w)
    /\ canvasElement (run w evs) = canvasElement w.
Proof.
  unfold run. induction evs as [|ev evs IH]; intros w H;
    cbn [fold_left existsb] in *.
  - split; reflexivity.
  - apply orb_false_iff in H. destruct H as [Hev Hevs].
    destruct (IH (step w ev) Hevs) as [Hc Hcv].
    destruct (step_without_load w ev Hev) as [Hc' Hcv'].
    split; congruence.
Qed.

(** X13: presses and clicks leave the dominant colours and the canvas as
    they are: between two image loads the palette stays that of the image
    and the sampler keeps reading the same pixels. *)
Theorem palette_changes_on_load_only (evs : list event) (w : World) :
  existsb isImageLoaded evs = false ->
  colors (appState (run w evs)) = colors (appState w)
  /\ canvasElement (run w evs) = canvasElement w.
Proof.
  apply run_without_load.
Qed.

Lemma palette_changes_on_load_only_witness :
  existsb isImageLoaded
    [PickPressed; ImageClicked (Some smallImage) clickAt23 0; PickPressed]
  = false
  /\ colors (appState
              (run (mkWorld (extractColors initialState redRedGreen)
                            (Some smallCanvas))
                   [PickPressed; ImageClicked (Some smallImage) clickAt23 0;
                    PickPressed]))
     = sortedColors redRedGreen.
Proof.
  split; [reflexivity|].
  exact (proj1 (palette_changes_on_load_only
                  [PickPressed; ImageClicked (Some smallImage) clickAt23 0;
                   PickPressed]
                  (mkWorld (extractColors initialState redRedGreen)
                           (Some smallCanvas))
                  eq_refl)).
Defined.

Lemma drawOn_valid (cv : Canvas.t) (image : LoadedImage.t) :
  validImage image -> validCanvas (drawOn cv image).
Proof.
  intros [Hw [Hh [Hlen Hbytes]]]. unfold validCanvas, drawOn.
  cbn [Canvas.width Canvas.height Canvas.bitmap].
  repeat split; try lia; assumption.
Qed.

Lemma load_valid_image (w : World) (cv : Canvas.t) (image : LoadedImage.t) :
  canvasElement w = Some cv ->
  Canvas.context2d cv = true ->
  validImage image ->
  step w (ImageLoaded image)
  = mkWorld (extractColors (appState w) (LoadedImage.raster image))
            (Some (drawOn cv image)).
Proof.
  intros Hcv Hctx [Hw [Hh _]]. cbn [step]. unfold extractColorsOnCanvas.
  rewrite Hcv, Hctx. cbn [negb drawOn Canvas.width Canvas.height Canvas.bitmap].
  destruct (Z.eqb_spec (LoadedImage.width image) 0); [lia|].
  destruct (Z.eqb_spec (LoadedImage.height image) 0); [lia|].
  reflexivity.
Qed.

(** X14: from upload to pick.  Once an image has loaded, and whatever was
    pressed or clicked since, the dominant colours are those of the image
    and the canvas holds the image, whatever it held before; and while
    picking is on, a click whose coordinates convert returns and records a
    colour of the histogram of the image when they lie inside it, and
    ["#000000"] when they lie outside. *)
Theorem load_then_pick (w : World) (cv : Canvas.t) (loaded : LoadedImage.t)
    (evs : list event) :
  canvasElement w = Some cv ->
  Canvas.context2d cv = true ->
  validImage loaded ->
  existsb isImageLoaded evs = false ->
  colors (appState (run (step w (ImageLoaded loaded)) evs))
  = sortedColors (LoadedImage.raster loaded)
  /\ canvasElement (run (step w (ImageLoaded loaded)) evs)
     = Some (drawOn cv loaded)
  /\ (isPicking (appState (run (step w (ImageLoaded loaded)) evs)) = true ->
      forall (image : Image.t) (e : MouseEvent.t) (now sx sy : Z),
        JS.toLong (displayX image e * scaleX image)%float = Some sx ->
        JS.toLong (displayY image e * scaleY image)%float = Some sy ->
        exists st' hex,
          getColorAtPoint (appState (run (step w (ImageLoaded loaded)) evs))
            (canvasElement (run (step w (ImageLoaded loaded)) evs))
            (Some image) e now
          = Returns st'
          /\ pickedColor st' = Some hex
          /\ (inside (drawOn cv loaded) sx sy ->
              exists c, In c (histogram (LoadedImage.raster loaded))
                        /\ Color.hex c = hex)
          /\ (~ inside (drawOn cv loaded) sx sy -> hex = "#000000"%string)).
Proof.
  intros Hcv Hctx Hvalid Hevs.
  rewrite (load_valid_image w cv loaded Hcv Hctx Hvalid).
  set (w1 := mkWorld (extractColors (appState w) (LoadedImage.raster loaded))
                     (Some (drawOn cv loaded))).
  destruct (run_without_load evs w1 Hevs) as [Hcolors Hcanvas].
  split; [exact Hcolors|]. split; [exact Hcanvas|].
  intros Hpick image e now sx sy Hx Hy. rewrite Hcanvas.
  cbn [w1 canvasElement].
  rewrite (getColorAtPoint_reads _ (drawOn cv loaded) image e now sx sy
             Hpick Hctx Hx Hy).
  destruct (pixel_counted_or_black (drawOn cv loaded) sx sy
              (drawOn_valid cv loaded Hvalid)) as [Hin Hout].
  exists (recordPick (appState (run w1 evs))
            (hexOfPixel (Canvas.pixelAt (drawOn cv loaded) sx sy)) now),
         (hexOfPixel (Canvas.pixelAt (drawOn cv loaded) sx sy)).
  split; [reflexivity|]. split; [reflexivity|]. split; [|exact Hout].
  intro Hi. destruct (Hin Hi) as [r [g [b [Hp ->]]]].
  cbn [drawOn Canvas.bitmap] in Hp.
  destruct (histogram_has_pixel _ r g b Hp) as [c [Hc Hhex]].
  now exists c.
Qed.

Lemma load_then_pick_witness :
  validImage smallLoaded
  /\ colors
       (appState (run (step (mkWorld initialState (Some redCanvas))
                            (ImageLoaded smallLoaded))
                      [PickPressed]))
     = sortedColors (LoadedImage.raster smallLoaded)
  /\ canvasElement (run (step (mkWorld initialState (Some redCanvas))
                              (ImageLoaded smallLoaded))
                        [PickPressed])
     = Some (drawOn redCanvas smallLoaded)
  /\ exists st' hex,
       getColorAtPoint
         (appState (run (step (mkWorld initialState (Some redCanvas))
                              (ImageLoaded smallLoaded))
                        [PickPressed]))
         (canvasElement (run (step (mkWorld initialState (Some redCanvas))
                                   (ImageLoaded smallLoaded))
                             [PickPressed]))
         (Some smallImage) clickAt23 0
       = Returns st'
       /\ pickedColor st' = Some hex
       /\ exists c, In c (histogram (LoadedImage.raster smallLoaded))
                    /\ Color.hex c = hex.
Proof.
  destruct (load_then_pick (mkWorld initialState (Some redCanvas)) redCanvas
              smallLoaded [PickPressed] eq_refl eq_refl smallLoaded_positive
              eq_refl) as [Hcolors [Hcanvas Hpick]].
  split; [exact smallLoaded_positive|]. split; [exact Hcolors|].
  split; [exact Hcanvas|].
  assert (Hx : JS.toLong (displayX smallImage clickAt23
                          * scaleX smallImage)%float = Some 2)
    by (vm_compute; reflexivity).
  assert (Hy : JS.toLong (displayY smallImage clickAt23
                          * scaleY smallImage)%float = Some 3)
    by (vm_compute; reflexivity).
  destruct (Hpick eq_refl smallImage clickAt23 0 2 3 Hx Hy)
    as [st' [hex [Hrun [Hpicked [Hinside _]]]]].
  exists st', hex. split; [exact Hrun|]. split; [exact Hpicked|].
  apply Hinside. vm_compute. intuition discriminate.
Defined.

End Application.

(** ** The copy confirmation and the labels *)

Section Presentation.

Lemma timeouts_run (n : nat) :
  forall (cs : CopyState) (due : Z) (older later : list Z),
    timeouts cs = older ++ due :: later ->
    List.length older = n ->
    Nat.iter (S n) timeoutFires cs = mkCopyState None later.
Proof.
  induction n as [|n IH]; intros cs due older later Ht Hlen.
  - destruct older; [|discriminate]. cbn [app] in Ht.
    cbn [Nat.iter nat_rect]. unfold timeoutFires. now rewrite Ht.
  - destruct older as [|d older]; [discriminate|]. cbn [app] in Ht.
    rewrite Nat.iter_succ_r.
    apply (IH _ due older later).
    + unfold timeoutFires. rewrite Ht. reflexivity.
    + cbn [List.length] in Hlen. lia.
Qed.

(** X15: the check mark of a copy is taken away by the timeout of an
    earlier copy.  After two copies, when the timeouts that were pending up
    to and including the one of the first copy have run, the check mark of
    the second colour is gone although its own timeout is still to come. *)
Theorem stale_timeout_clears_later_copy (cs : CopyState) (c1 c2 : string)
    (t1 t2 : Z) :
  let copied := copyToClipboard (copyToClipboard cs c1 t1) c2 t2 in
  let later := Nat.iter (S (List.length (timeouts cs))) timeoutFires copied in
  showsCheck copied c2 = true
  /\ showsCheck later c2 = false
  /\ timeouts later = [t2 + 2000].
Proof.
  cbn zeta.
  assert (E : Nat.iter (S (List.length (timeouts cs))) timeoutFires
                (copyToClipboard (copyToClipboard cs c1 t1) c2 t2)
              = mkCopyState None [t2 + 2000]).
  { apply (timeouts_run _ _ (t1 + 2000) (timeouts cs)); [|reflexivity].
    unfold copyToClipboard. cbn [timeouts]. now rewrite <- app_assoc. }
  rewrite E. split; [|split; reflexivity].
  unfold showsCheck, copyToClipboard. cbn [copiedColor].
  apply String.eqb_refl.
Qed.

Lemma upperChar_hexDigit (d : Z) :
  0 <= d < 16 -> upperChar (JS.hexDigit d) = upperHexDigit d.
Proof.
  intro H.
  assert (C : d = 0 \/ d = 1 \/ d = 2 \/ d = 3 \/ d = 4 \/ d = 5
              \/ d = 6 \/ d = 7 \/ d = 8 \/ d = 9 \/ d = 10 \/ d = 11
              \/ d = 12 \/ d = 13 \/ d = 14 \/ d = 15) by lia.
  clear H. repeat (destruct C as [C|C]); subst d; reflexivity.
Qed.

Lemma upperHexDigit_inj (d1 d2 : Z) :
  0 <= d1 < 16 -> 0 <= d2 < 16 ->
  upperHexDigit d1 = upperHexDigit d2 -> d1 = d2.
Proof.
  intros H1 H2 E.
  assert (C1 : d1 = 0 \/ d1 = 1 \/ d1 = 2 \/ d1 = 3 \/ d1 = 4 \/ d1 = 5
               \/ d1 = 6 \/ d1 = 7 \/ d1 = 8 \/ d1 = 9 \/ d1 = 10 \/ d1 = 11
               \/ d1 = 12 \/ d1 = 13 \/ d1 = 14 \/ d1 = 15) by lia.
  assert (C2 : d2 = 0 \/ d2 = 1 \/ d2 = 2 \/ d2 = 3 \/ d2 = 4 \/ d2 = 5
               \/ d2 = 6 \/ d2 = 7 \/ d2 = 8 \/ d2 = 9 \/ d2 = 10 \/ d2 = 11
               \/ d2 = 12 \/ d2 = 13 \/ d2 = 14 \/ d2 = 15) by lia.
  clear H1 H2.
  repeat (destruct C1 as [C1|C1]); subst d1;
    repeat (destruct C2 as [C2|C2]); subst d2;
    first [reflexivity | discriminate E].
Qed.

Lemma swatchLabel_digits (r g b : Z) :
  byte r -> byte g -> byte b ->
  swatchLabel (hexOfRGB r g b)
  = String "#" (upperByteDigits r ++ upperByteDigits g
                ++ upperByteDigits b)%string.
Proof.
  intros Hr Hg Hb. rewrite hexOfRGB_digits by assumption.
  destruct (nibbles r Hr) as [? ?]. destruct (nibbles g Hg) as [? ?].
  destruct (nibbles b Hb) as [? ?].
  unfold swatchLabel, byteDigits, upperByteDigits.
  cbn [toUpperCase String.append].
  rewrite !upperChar_hexDigit by assumption. reflexivity.
Qed.

(** X16: the label of a swatch is ["#"] and the six digits of the colour
    in upper case, and it still tells colours apart: two byte triples with
    the same label are the same. *)
Theorem swatchLabel_of_colour (r g b r' g' b' : Z) :
  byte r -> byte g -> byte b -> byte r' -> byte g' -> byte b' ->
  swatchLabel (hexOfRGB r g b)
  = String "#" (upperByteDigits r ++ upperByteDigits g
                ++ upperByteDigits b)%string
  /\ (swatchLabel (hexOfRGB r g b) = swatchLabel (hexOfRGB r' g' b') ->
      (r, g, b) = (r', g', b')).
Proof.
  intros Hr Hg Hb Hr' Hg' Hb'.
  split; [now apply swatchLabel_digits|].
  rewrite !swatchLabel_digits by assumption. intro E.
  unfold upperByteDigits in E. cbn [String.append] in E.
  injection E as E1 E2 E3 E4 E5 E6.
  destruct (nibbles r Hr) as [? ?]. destruct (nibbles g Hg) as [? ?].
  destruct (nibbles b Hb) as [? ?]. destruct (nibbles r' Hr') as [? ?].
  destruct (nibbles g' Hg') as [? ?]. destruct (nibbles b' Hb') as [? ?].
  apply upperHexDigit_inj in E1, E2, E3, E4, E5, E6; try assumption.
  rewrite (Z.div_mod r 16), (Z.div_mod g 16), (Z.div_mod b 16) by lia.
  rewrite (Z.div_mod r' 16), (Z.div_mod g' 16), (Z.div_mod b' 16) by lia.
  congruence.
Qed.

Lemma swatchLabel_of_colour_witness :
  swatchLabel (hexOfRGB 10 20 30) = "#0A141E"%string
  /\ (swatchLabel (hexOfRGB 10 20 30) = swatchLabel (hexOfRGB 10 20 31) ->
      (10, 20, 30) = (10, 20, 31)).
Proof.
  assert (B : forall c, 0 <= c <= 255 -> byte c) by (intros c H; exact H).
  exact (swatchLabel_of_colour 10 20 30 10 20 31
           (B 10 ltac:(lia)) (B 20 ltac:(lia)) (B 30 ltac:(lia))
           (B 10 ltac:(lia)) (B 20 ltac:(lia)) (B 31 ltac:(lia))).
Defined.

End Presentation.

(** ** Rearranging the pixels *)

Section Rearranging.

Lemma countColors_entry_iff (imageData : list Z) (k : string) (c : Z) :
  In (k, c) (countColors imageData [])
  <-> In k (pixelKeys imageData)
      /\ c = Z.of_nat (occurrences k imageData).
Proof.
  split.
  - intro H. apply countColors_entry in H. tauto.
  - intros [Hk ->].
    assert (Hkey : In k (StringMap.keys (countColors imageData []))).
    { rewrite countColors_fold. apply keys_fold_In. now right. }
    unfold StringMap.keys in Hkey. apply in_map_iff in Hkey.
    destruct Hkey as [[k' v] [E Hin]]. cbn [fst] in E. subst k'.
    destruct (countColors_entry imageData k v Hin) as [-> _]. exact Hin.
Qed.

(** X17: the histogram does not depend on where the pixels are.  Two
    buffers of the same size whose pixels are the same up to their order
    (a mirrored or rotated image, say) have the same colours with the same
    percentages; only the order of the entries can differ. *)
Theorem histogram_of_rearranged_pixels (d1 d2 : list Z) :
  List.length d1 = List.length d2 ->
  Permutation (pixels d1) (pixels d2) ->
  Permutation (histogram d1) (histogram d2).
Proof.
  intros Hlen Hperm. unfold histogram, StringMap.entries, totalPixels.
  rewrite Hlen. apply Permutation_map.
  assert (Hkeys : Permutation (pixelKeys d1) (pixelKeys d2))
    by (unfold pixelKeys; now apply Permutation_map).
  apply NoDup_Permutation.
  - apply (NoDup_map_inv fst). fold (StringMap.keys (countColors d1 [])).
    rewrite countColors_fold. apply (keys_fold_NoDup _ []). constructor.
  - apply (NoDup_map_inv fst). fold (StringMap.keys (countColors d2 [])).
    rewrite countColors_fold. apply (keys_fold_NoDup _ []). constructor.
  - intros [k c]. rewrite !countColors_entry_iff. unfold occurrences.
    rewrite (Permutation_count_occ string_dec) in Hkeys.
    rewrite (Hkeys k). split; intros [Hin E]; (split; [|exact E]).
    + apply (count_occ_In string_dec).
      apply (count_occ_In string_dec) in Hin. now rewrite <- (Hkeys k).
    + apply (count_occ_In string_dec).
      apply (count_occ_In string_dec) in Hin. now rewrite (Hkeys k).
Qed.

Lemma histogram_of_rearranged_pixels_witness :
  List.length redRedGreen = List.length greenRedRed
  /\ Permutation (pixels redRedGreen) (pixels greenRedRed)
  /\ Permutation (histogram redRedGreen) (histogram greenRedRed).
Proof.
  assert (Hperm : Permutation (pixels redRedGreen) (pixels greenRedRed)).
  { cbn [pixels redRedGreen greenRedRed].
    apply (Permutation_cons_app [(0, 255, 0)] [(255, 0, 0)]). cbn [app].
    apply perm_swap. }
  split; [reflexivity|]. split; [exact Hperm|].
  exact (histogram_of_rearranged_pixels redRedGreen greenRedRed eq_refl
           Hperm).
Defined.

End Rearranging.
